(** * CortexSupport backend: user registration, authentication and paginated CRUD

    A shallow embedding of the repository's CRUD/auth flow
    ([app/db/pagination.py], [app/repository/user.py],
    [app/services/user_service.py], [app/core/security.py] and the route
    handlers of [app/api/v1/endpoints]) together with the properties the
    specification states about it.

    Conventions of the embedding.
    - A MongoDB document is a finite map from field names to values; a
      collection is the list of its documents in natural (insertion) order.
    - An [async] function that touches the collection is a computation in the
      monad [M]: it threads the collection and either returns a value or
      raises an exception.  A write performed before an exception persists.
    - Values the runtime draws from outside (the identifier generated by
      [insert_one], the salt of the password hash, the clock) are explicit
      arguments.
    - Calls are taken as the code writes them.  A method called on the class
      [UserService] receives no instance; a name a module does not import is
      unbound; [await] applied to a value that is no awaitable fails; a
      schema object has the attributes its class declares and no others.
      The statements that follow such a point in a function body are kept
      in the model, so that each definition can be read against its
      source. *)

From Stdlib Require Import ZArith Lia Ascii.
From stdpp Require Import gmap strings list fin_maps pretty.

Local Open Scope Z_scope.

(** ** Values, documents, exceptions *)

Inductive Value :=
| VNull
| VStr (s : string)
| VInt (z : Z)
| VBool (b : bool)
| VTime (t : Z)        (* a datetime, microseconds since the epoch *)
| VId (o : string).    (* an ObjectId, rendered as the lower-case hex digits
                          of its bytes *)

#[global] Instance Value_eq_dec : EqDecision Value.
Proof. solve_decision. Defined.

Abbreviation Doc := (gmap string Value).
Abbreviation Collection := (list (gmap string Value)).

Inductive Exn :=
| HTTPException (status_code : Z) (detail : string)
    (headers : list (string * string))
| InvalidId            (* bson.errors.InvalidId *)
| DuplicateKeyError    (* pymongo.errors.DuplicateKeyError *)
| ValidationError      (* pydantic.ValidationError *)
| TypeError
| ValueError
| ZeroDivisionError
| KeyError
| NameError
| AttributeError
| JWTError.             (* jose.JWTError and its subclasses *)

#[global] Instance Exn_eq_dec : EqDecision Exn.
Proof. solve_decision. Defined.

(** ** Results and the collection monad *)

#[global] Instance Result_ret : MRet (sum Exn) := λ A (a : A), inr a.
#[global] Instance Result_fmap : FMap (sum Exn) := λ A B (f : A → B) m,
  match m with
  | inr a => inr (f a)
  | inl e => inl e
  end.
#[global] Instance Result_bind : MBind (sum Exn) := λ A B (f : A → Exn + B) m,
  match m with
  | inr a => f a
  | inl e => inl e
  end.

Definition M (A : Type) : Type := Collection → (Exn + A) * Collection.

#[global] Instance M_ret : MRet M := λ A (a : A) c, (inr a, c).
#[global] Instance M_bind : MBind M := λ A B (f : A → M B) (m : M A) c,
  match m c with
  | (inr a, c') => f a c'
  | (inl e, c') => (inl e, c')
  end.

Definition raise {A} (e : Exn) : M A := λ c, (inl e, c).
Definition read_collection : M Collection := λ c, (inr c, c).
Definition write_collection (c' : Collection) : M unit := λ _, (inr tt, c').

(** [[f(x) for x in xs]] where [f] may raise. *)
Fixpoint traverse {A B} (f : A → Exn + B) (xs : list A) : Exn + list B :=
  match xs with
  | [] => inr []
  | x :: xs' =>
      match f x with
      | inl e => inl e
      | inr y =>
          match traverse f xs' with
          | inl e => inl e
          | inr ys => inr (y :: ys)
          end
      end
  end.

Definition lift {A} (r : Exn + A) : M A := λ c, (r, c).

(** [await v] for a value [v] that is no coroutine, task or future: a
    [TypeError]. *)
Definition await_plain_value {A} : M A := raise TypeError.

(** ** Python string operations the code uses

    Characters are code points below 256. *)

Module py.

(** [str.isspace] on one character. *)
Definition isspace (a : ascii) : bool :=
  let n := nat_of_ascii a in
  ((9 <=? n) && (n <=? 13) || (28 <=? n) && (n <=? 32)
   || (n =? 133) || (n =? 160))%nat.

Fixpoint lstrip (s : string) : string :=
  match s with
  | EmptyString => EmptyString
  | String a s' => if isspace a then lstrip s' else s
  end.

Fixpoint rstrip (s : string) : string :=
  match s with
  | EmptyString => EmptyString
  | String a s' =>
      match rstrip s' with
      | EmptyString => if isspace a then EmptyString else String a EmptyString
      | r => String a r
      end
  end.

(** [s.strip()] *)
Definition strip (s : string) : string := rstrip (lstrip s).

(** [s.split(sep)] for a separator of one character: the pieces between
    the separators, empty ones included; never an empty list. *)
Fixpoint split (sep : ascii) (s : string) : list string :=
  match s with
  | EmptyString => [EmptyString]
  | String a s' =>
      if bool_decide (a = sep) then EmptyString :: split sep s'
      else match split sep s' with
           | piece :: pieces => String a piece :: pieces
           | [] => [String a EmptyString]
           end
  end.

(** [sep.join(pieces)] *)
Fixpoint join (sep : string) (pieces : list string) : string :=
  match pieces with
  | [] => EmptyString
  | [piece] => piece
  | piece :: pieces' => (piece +:+ sep +:+ join sep pieces')%string
  end.

(** [len(s.split())]: the number of maximal runs of characters that are
    not whitespace. [inside] tells whether the previous character was in
    such a run. *)
Fixpoint count_words_from (inside : bool) (s : string) : nat :=
  match s with
  | EmptyString => 0
  | String a s' =>
      if isspace a then count_words_from false s'
      else if inside then count_words_from true s'
      else S (count_words_from true s')
  end.

Definition count_words (s : string) : nat := count_words_from false s.

(** [a in s] for a character [a]. *)
Fixpoint contains (a : ascii) (s : string) : bool :=
  match s with
  | EmptyString => false
  | String b s' => bool_decide (b = a) || contains a s'
  end.

(** [int(s)] for a string: white space around, an optional sign, decimal
    digits with single underscores between them, at most 4300 digits.
    [None] stands for the [ValueError]. *)
Definition digit_value (a : ascii) : option Z :=
  let n := nat_of_ascii a in
  if ((48 <=? n) && (n <=? 57))%nat then Some (Z.of_nat (n - 48)) else None.

Fixpoint parse_digits (acc : Z) (count : nat) (after_digit : bool)
    (s : string) : option (Z * nat) :=
  match s with
  | EmptyString => if after_digit then Some (acc, count) else None
  | String a s' =>
      if bool_decide (a = "_"%char)
      then if after_digit then parse_digits acc count false s' else None
      else
        match digit_value a with
        | Some d => parse_digits (acc * 10 + d) (S count) true s'
        | None => None
        end
  end.

Definition int_of_digits (s : string) : option Z :=
  match parse_digits 0 0 false s with
  | Some (n, count) => if (4300 <? count)%nat then None else Some n
  | None => None
  end.

Definition int_of_str (s : string) : option Z :=
  match strip s with
  | String "-" digits => Z.opp <$> int_of_digits digits
  | String "+" digits => int_of_digits digits
  | digits => int_of_digits digits
  end.

(** A global name evaluates to what the module binds it to; a name the
    module neither defines nor imports raises [NameError]. *)
Definition global_name (module_names : list string) (name : string)
  : Exn + unit :=
  if bool_decide (name ∈ module_names) then inr tt else inl NameError.

(** A call binds every parameter of the function exactly once: the
    leading ones to the [positional] arguments, the others to the
    arguments given by keyword; a parameter in [defaults] may stay
    unbound.  A method reached through the class, not through an
    instance, is the plain function: [self] is a parameter like the
    others and the caller has to supply it. *)
Definition bind_arguments (params defaults : list string) (positional : nat)
    (keywords : list string) : Exn + unit :=
  if (length params <? positional)%nat then inl TypeError
  else
    let rest := drop positional params in
    if forallb (λ k, bool_decide (k ∈ rest)) keywords
       && forallb (λ p, bool_decide (p ∈ keywords)
                        || bool_decide (p ∈ defaults)) rest
    then inr tt else inl TypeError.

End py.

(** ** bson.ObjectId *)

Module ObjectId.

Definition is_hex (a : ascii) : bool :=
  let n := nat_of_ascii a in
  ((48 <=? n) && (n <=? 57) || (65 <=? n) && (n <=? 70)
   || (97 <=? n) && (n <=? 102))%nat.

Definition lower (a : ascii) : ascii :=
  let n := nat_of_ascii a in
  if ((65 <=? n) && (n <=? 90))%nat then ascii_of_nat (n + 32) else a.

Fixpoint all_hex (s : string) : bool :=
  match s with
  | EmptyString => true
  | String a s' => is_hex a && all_hex s'
  end.

Fixpoint lowercase (s : string) : string :=
  match s with
  | EmptyString => EmptyString
  | String a s' => String (lower a) (lowercase s')
  end.

(** The white space [bytes.fromhex] skips between two bytes. *)
Definition is_ascii_space (a : ascii) : bool :=
  let n := nat_of_ascii a in
  ((9 <=? n) && (n <=? 13) || (n =? 32))%nat.

(** [bytes.fromhex(s)], the bytes rendered as lower-case hex digits: pairs
    of hexadecimal digits, with any white space between the pairs and none
    inside one.  [None] stands for the [ValueError]. *)
Fixpoint fromhex (s : string) : option string :=
  match s with
  | EmptyString => Some EmptyString
  | String a s' =>
      if is_ascii_space a then fromhex s'
      else
        match s' with
        | String b s'' =>
            if is_hex a && is_hex b
            then String (lower a) ∘ String (lower b) <$> fromhex s''
            else None
        | EmptyString => None
        end
  end.

(** [ObjectId(oid)] for a [str]: a string of 24 characters that
    [bytes.fromhex] accepts; anything else raises [InvalidId]. *)
Definition make (oid : string) : Exn + string :=
  if (String.length oid =? 24)%nat then
    match fromhex oid with
    | Some id => inr id
    | None => inl InvalidId
    end
  else inl InvalidId.

(** [ObjectId.is_valid(oid)]: whether [ObjectId(oid)] succeeds. *)
Definition is_valid (oid : string) : bool :=
  if make oid is inr _ then true else false.

End ObjectId.

(** ** The collection operations of the driver that the code uses *)

Module Mongo.

(** What the driver stores of a value: BSON keeps a datetime to the
    millisecond. *)
Definition stored_value (v : Value) : Value :=
  match v with
  | VTime t => VTime (t / 1000 * 1000)
  | _ => v
  end.

Definition stored (doc : Doc) : Doc := stored_value <$> doc.

(** An equality filter [{k1: v1, ...}] selects the documents that carry
    every one of its bindings; [{}] selects all. *)
Definition matches (query doc : Doc) : bool :=
  forallb (λ kv, bool_decide (doc !! kv.1 = Some kv.2)) (map_to_list query).

Definition find (query : Doc) (c : Collection) : list Doc :=
  List.filter (matches query) c.

Definition find_one (query : Doc) : M (option Doc) :=
  c ← read_collection; mret (head (find query c)).

Definition count_documents (query : Doc) : M Z :=
  c ← read_collection; mret (Z.of_nat (length (find query c))).

(** [cursor.skip(n)]: negative values are refused by the driver. *)
Definition skip (n : Z) (docs : list Doc) : Exn + list Doc :=
  if n <? 0 then inl ValueError else inr (drop (Z.to_nat n) docs).

(** [cursor.limit(n)]: [0] means no limit, a negative limit is taken by
    its absolute value. *)
Definition limit (n : Z) (docs : list Doc) : list Doc :=
  if n =? 0 then docs else take (Z.to_nat (Z.abs n)) docs.

Definition has_id (key : Value) (c : Collection) : bool :=
  existsb (λ d, bool_decide (d !! "_id" = Some key)) c.

(** [insert_one(doc)]: a document without [_id] gets the identifier
    [oid] the driver generates; the document is appended as it is stored,
    unless the unique index on [_id] refuses it.  Returns [inserted_id]. *)
Definition insert_one (oid : string) (doc : Doc) : M Value :=
  c ← read_collection;
  let doc' := if doc !! "_id" is Some _ then doc
              else <["_id" := VId oid]> doc in
  let doc' := stored doc' in
  let key := default VNull (doc' !! "_id") in
  if has_id key c then raise DuplicateKeyError
  else _ ← write_collection (c ++ [doc']); mret key.

(** Apply [f] to the first document selected by [query]. *)
Fixpoint update_first (query : Doc) (f : Doc → Doc) (c : Collection)
  : Collection :=
  match c with
  | [] => []
  | d :: c' => if matches query d then f d :: c'
               else d :: update_first query f c'
  end.

(** [{"$set": update_data}]: the listed fields are overwritten with the
    values as they are stored, the others kept. *)
Definition set_fields (update_data doc : Doc) : Doc :=
  stored update_data ∪ doc.

Definition update_one (query update_data : Doc) : M unit :=
  c ← read_collection;
  write_collection (update_first query (set_fields update_data) c).

Definition find_one_and_update (query update_data : Doc)
    (return_after : bool) : M (option Doc) :=
  before ← find_one query;
  _ ← update_one query update_data;
  mret (if return_after then set_fields update_data <$> before
        else before).

Fixpoint remove_first (query : Doc) (c : Collection) : Collection :=
  match c with
  | [] => []
  | d :: c' => if matches query d then c' else d :: remove_first query c'
  end.

(** [delete_one(query)], returning [deleted_count]. *)
Definition delete_one (query : Doc) : M Z :=
  before ← find_one query;
  c ← read_collection;
  _ ← write_collection (remove_first query c);
  mret (if before is Some _ then 1 else 0).

End Mongo.

(** ** Pagination schemas ([app/schemas/common.py]) *)

Module PaginationParams.
Record t := { page : Z; page_size : Z }.
(** The field constraints [page >= 1] and [1 <= page_size <= 100]. *)
Definition valid (p : t) : Prop := 1 ≤ page p ∧ 1 ≤ page_size p ≤ 100.
End PaginationParams.

Module PaginatedResponse.
Record t (T : Type) := {
  items : list T;
  total : Z;
  page : Z;
  page_size : Z;
  total_pages : Z
}.
Arguments items {T}.
Arguments total {T}.
Arguments page {T}.
Arguments page_size {T}.
Arguments total_pages {T}.
End PaginatedResponse.

(** A Python object used as a condition. *)
Definition truthy_list {A} (l : option (list A)) : bool :=
  match l with Some (_ :: _) => true | _ => false end.

(** ** The generic paginated CRUD helper ([app/db/pagination.py]) *)

Module CRUDPaginatedMongo.
Section WithModel.

(** The response model the helper is built with: constructing it from a
    document may fail.  [sort_by] is the order the database engine
    produces for a sort specification. *)
Context {ModelType : Type}.
Variable model : Doc → Exn + ModelType.
Variable sort_by : list (string * Z) → list Doc → list Doc.

(** The documents the cursor [find(query).skip(..).limit(..)], sorted when
    a sort is given, ranges over before [skip] and [limit] apply. *)
Definition ordered (query : Doc) (sort : option (list (string * Z)))
    (c : Collection) : list Doc :=
  if truthy_list sort then sort_by (default [] sort) (Mongo.find query c)
  else Mongo.find query c.

(** The page of documents a request addresses: after the first
    [(page - 1) * page_size] documents of the cursor order, at most
    [page_size] of them. *)
Definition window (p : PaginationParams.t) (query : option Doc)
    (sort : option (list (string * Z))) (c : Collection) : list Doc :=
  take (Z.to_nat (PaginationParams.page_size p))
    (drop (Z.to_nat ((PaginationParams.page p - 1)
                     * PaginationParams.page_size p))
       (ordered (default ∅ query) sort c)).

Definition get_multi (pagination : PaginationParams.t)
    (query : option Doc) (sort : option (list (string * Z)))
  : M (PaginatedResponse.t ModelType) :=
  let query := default ∅ query in
  let skip := (PaginationParams.page pagination - 1)
              * PaginationParams.page_size pagination in
  total ← Mongo.count_documents query;
  if PaginationParams.page_size pagination =? 0 then raise ZeroDivisionError
  else
  let total_pages := (total + PaginationParams.page_size pagination - 1)
                     / PaginationParams.page_size pagination in
  c ← read_collection;
  skipped ← lift (Mongo.skip skip (ordered query sort c));
  let cursor := Mongo.limit (PaginationParams.page_size pagination) skipped in
  items ← lift (traverse model cursor);
  mret {| PaginatedResponse.items := items;
          PaginatedResponse.total := total;
          PaginatedResponse.page := PaginationParams.page pagination;
          PaginatedResponse.page_size := PaginationParams.page_size pagination;
          PaginatedResponse.total_pages := total_pages |}.

(** [get]: a found document always carries [_id], so the test [if item]
    is the test for a hit. *)
Definition get (id : string) : M (option ModelType) :=
  if negb (ObjectId.is_valid id) then mret None
  else
    oid ← lift (ObjectId.make id);
    item ← Mongo.find_one {[ "_id" := VId oid ]};
    match item with
    | Some d => m ← lift (model d); mret (Some m)
    | None => mret None
    end.

Definition create (inserted_id : string) (obj_in : Doc) : M ModelType :=
  oid ← Mongo.insert_one inserted_id obj_in;
  created ← Mongo.find_one {[ "_id" := oid ]};
  match created with
  | Some d => lift (model d)
  | None => raise TypeError
  end.

(** [update]: [obj_in] stands for [obj_in.dict()], every field of the
    schema present and the ones not given bound to null. *)
Definition update (id : string) (obj_in : Doc) (return_updated : bool)
  : M (option ModelType) :=
  if negb (ObjectId.is_valid id) then mret None
  else
    let update_data := filter (λ kv, kv.2 ≠ VNull) obj_in in
    if decide (update_data = ∅) then get id
    else
      oid ← lift (ObjectId.make id);
      result ← Mongo.find_one_and_update {[ "_id" := VId oid ]}
                 update_data return_updated;
      match result with
      | Some d => m ← lift (model d); mret (Some m)
      | None => mret None
      end.

Definition delete (id : string) : M bool :=
  if negb (ObjectId.is_valid id) then mret false
  else
    oid ← lift (ObjectId.make id);
    n ← Mongo.delete_one {[ "_id" := VId oid ]};
    mret (0 <? n).

End WithModel.
End CRUDPaginatedMongo.

(** ** User schemas ([app/schemas/user.py]) *)

(** The e-mail validator behind [EmailStr]: it refuses an address or
    returns its normalised form. *)
Class EmailValidator := { validate_email : string → option string }.

Inductive UserRole := USER | ADMIN.

#[global] Instance UserRole_eq_dec : EqDecision UserRole.
Proof. solve_decision. Defined.

Definition role_value (r : UserRole) : string :=
  match r with USER => "user" | ADMIN => "admin" end.

Definition opt_str (o : option string) : Value :=
  match o with Some s => VStr s | None => VNull end.

Definition len (s : string) : Z := Z.of_nat (String.length s).

Module UserCreate.
Record t := {
  email : string;
  username : string;
  full_name : option string;
  role : UserRole;
  password : string
}.

(** The declared field constraints (the syntax of the e-mail address is
    left to the validator library). *)
Definition valid (u : t) : bool :=
  (3 <=? len (username u)) && (len (username u) <=? 50)
  && (match full_name u with Some f => len f <=? 100 | None => true end)
  && (8 <=? len (password u)) && (len (password u) <=? 100).

(** [model_dump(exclude={"password"})] *)
Definition dump_exclude_password (u : t) : Doc :=
  {[ "email" := VStr (email u);
     "username" := VStr (username u);
     "full_name" := opt_str (full_name u);
     "role" := VStr (role_value (role u)) ]}.
End UserCreate.

(** A field of a partial update: not supplied, supplied as null, or
    supplied with a value. *)
Inductive Field (A : Type) := Unset | Null | Given (a : A).
Arguments Unset {A}.
Arguments Null {A}.
Arguments Given {A}.

Definition field_items {A} (k : string) (f : Field A) (enc : A → Value)
  : list (string * Value) :=
  match f with
  | Unset => []
  | Null => [(k, VNull)]
  | Given a => [(k, enc a)]
  end.

Definition field_value {A} (f : Field A) (enc : A → Value) : Value :=
  match f with Given a => enc a | _ => VNull end.

(** Truth value of an optional string attribute. *)
Definition truthy_field (f : Field string) : bool :=
  match f with Given s => negb (bool_decide (s = "")) | _ => false end.

Module UserUpdate.
Record t := {
  email : Field string;
  username : Field string;
  full_name : Field string;
  password : Field string;
  role : Field UserRole
}.

(** [dict(exclude_unset=True)]: the fields the caller supplied, null
    ones included. *)
Definition dict_exclude_unset (u : t) : Doc :=
  list_to_map (field_items "email" (email u) VStr
               ++ field_items "username" (username u) VStr
               ++ field_items "full_name" (full_name u) VStr
               ++ field_items "password" (password u) VStr
               ++ field_items "role" (role u) (λ r, VStr (role_value r))).

(** [dict()]: every field, null when not supplied. *)
Definition dict (u : t) : Doc :=
  {[ "email" := field_value (email u) VStr;
     "username" := field_value (username u) VStr;
     "full_name" := field_value (full_name u) VStr;
     "password" := field_value (password u) VStr;
     "role" := field_value (role u) (λ r, VStr (role_value r)) ]}.

Definition empty : t :=
  {| email := Unset; username := Unset; full_name := Unset;
     password := Unset; role := Unset |}.

(** The declared field constraints on the fields that carry a value. *)
Definition valid (u : t) : bool :=
  (match username u with
   | Given s => (3 <=? len s) && (len s <=? 50)
   | _ => true
   end)
  && (match full_name u with Given s => len s <=? 100 | _ => true end)
  && (match password u with
      | Given s => (8 <=? len s) && (len s <=? 100)
      | _ => true
      end).
End UserUpdate.

(** The response schema: it has no field for the password hash. *)
Module UserResponse.
Record t := {
  id : string;
  email : string;
  username : string;
  full_name : option string;
  role : UserRole;
  disabled : bool;
  is_superuser : bool;
  created_at : option Z;   (* [None]: not stored, the default applies *)
  updated_at : option Z
}.

Definition parse_role (v : option Value) : Exn + UserRole :=
  match v with
  | None => inr USER
  | Some (VStr s) =>
      if bool_decide (s = "user") then inr USER
      else if bool_decide (s = "admin") then inr ADMIN
      else inl ValidationError
  | Some _ => inl ValidationError
  end.

Definition parse_flag (v : option Value) : Exn + bool :=
  match v with
  | None => inr false
  | Some (VBool b) => inr b
  | Some _ => inl ValidationError
  end.

Definition parse_time (v : option Value) (nullable : bool)
  : Exn + option Z :=
  match v with
  | None => inr None
  | Some (VTime t) => inr (Some t)
  | Some VNull => if nullable then inr None else inl ValidationError
  | Some _ => inl ValidationError
  end.

(** Building the schema object from the keys of [user]: the required
    fields must be present and well-typed, the e-mail address is
    validated and kept in its normalised form, the declared lengths hold,
    unknown keys are ignored. *)
Definition make {emails : EmailValidator} (user : Doc) : Exn + t :=
  match user !! "id", user !! "email", user !! "username" with
  | Some (VStr i), Some (VStr e), Some (VStr u) =>
      if negb ((3 <=? len u) && (len u <=? 50)) then inl ValidationError
      else
        match validate_email e with
        | Some e => inr e
        | None => inl ValidationError
        end ≫= λ e,
        match user !! "full_name" with
        | Some (VStr f) =>
            if len f <=? 100 then inr (Some f) else inl ValidationError
        | None | Some VNull => inr None
        | Some _ => inl ValidationError
        end ≫= λ fn,
        parse_role (user !! "role") ≫= λ r,
        parse_flag (user !! "disabled") ≫= λ d,
        parse_flag (user !! "is_superuser") ≫= λ su,
        parse_time (user !! "created_at") false ≫= λ ca,
        parse_time (user !! "updated_at") true ≫= λ ua,
        inr {| id := i; email := e; username := u; full_name := fn;
               role := r; disabled := d; is_superuser := su;
               created_at := ca; updated_at := ua |}
  | _, _, _ => inl ValidationError
  end.
End UserResponse.

(** The schema of a stored user as the repository reads it.  It declares
    the fields of [UserResponse], with the same constraints, and like it
    no field for the password hash. *)
Module UserInDB.
Definition t := UserResponse.t.

Definition make {emails : EmailValidator} (user : Doc) : Exn + t :=
  UserResponse.make user.

(** The schema object built from a found document, its keys taken as
    the keyword arguments; [None] for no document. *)
Definition of_found {emails : EmailValidator} (user : option Doc) : Exn + option t :=
  match user with
  | None => inr None
  | Some d => if decide (d = ∅) then inr None else Some <$> make d
  end.

(** [user.hashed_password]: the class declares no such attribute. *)
Definition hashed_password (user : t) : Exn + string := inl AttributeError.
End UserInDB.

(** ** Password and token primitives ([app/core/security.py]) *)

(** The hashing library behind [pwd_context]: [hash] draws a salt per call,
    [verify] answers for a stored hash string or raises for one it cannot
    identify. *)
Class PwdContext := {
  pwd_hash : string → string → string;          (* salt, password *)
  pwd_verify : string → string → Exn + bool     (* plain password, hash *)
}.

(** [app/core/config.py] *)
Class Settings := { SECRET_KEY : string }.

Definition ACCESS_TOKEN_EXPIRE_MINUTES : Z := 60 * 24 * 7.

(** A [timedelta] and a [datetime] count microseconds. *)
Definition minutes (n : Z) : Z := n * 60 * 1000000.

(** [timegm(dt.utctimetuple())]: the whole seconds of a datetime. *)
Definition timegm (t : Z) : Z := t / 1000000.

(** The JWT library (python-jose, HS256).  A signature verifies exactly
    when it was made over the same claims with the same key, so a signed
    token is represented by its claims and its signing key. *)
Module jwt.

Inductive Token :=
| Signed (claims : Doc) (key : string)
| Malformed (raw : string).

(** A datetime under [exp], [iat] or [nbf] is written as whole seconds. *)
Definition to_timestamp (k : string) (claims : Doc) : Doc :=
  match claims !! k with
  | Some (VTime t) => <[k := VInt (timegm t)]> claims
  | _ => claims
  end.

Definition encode (claims : Doc) (key : string) : Token :=
  Signed (to_timestamp "nbf" (to_timestamp "iat" (to_timestamp "exp" claims)))
         key.

(** [int(claims[k])] as the validators of the time claims call it: a
    [ValueError] becomes the library's claims error, a [TypeError] is not
    caught. *)
Definition int_claim (v : Value) : Exn + Z :=
  match v with
  | VInt n => inr n
  | VBool b => inr (if b then 1 else 0)
  | VStr s => if py.int_of_str s is Some n then inr n else inl JWTError
  | VNull | VTime _ | VId _ => inl TypeError
  end.

Definition validate_iat (claims : Doc) : Exn + unit :=
  match claims !! "iat" with
  | None => inr tt
  | Some v => _ ← int_claim v; inr tt
  end.

Definition validate_nbf (claims : Doc) (now : Z) : Exn + unit :=
  match claims !! "nbf" with
  | None => inr tt
  | Some v =>
      nbf ← int_claim v;
      if timegm now <? nbf then inl JWTError else inr tt
  end.

(** The token is expired once [exp] is less than the current second. *)
Definition validate_exp (claims : Doc) (now : Z) : Exn + unit :=
  match claims !! "exp" with
  | None => inr tt
  | Some v =>
      exp ← int_claim v;
      if exp <? timegm now then inl JWTError else inr tt
  end.

(** No audience is passed to [decode], so a token that names one is
    refused. *)
Definition validate_aud (claims : Doc) : Exn + unit :=
  match claims !! "aud" with
  | None => inr tt
  | Some _ => inl JWTError
  end.

Definition validate_sub (claims : Doc) : Exn + unit :=
  match claims !! "sub" with
  | None | Some (VStr _) => inr tt
  | Some _ => inl JWTError
  end.

Definition validate_jti (claims : Doc) : Exn + unit :=
  match claims !! "jti" with
  | None | Some (VStr _) => inr tt
  | Some _ => inl JWTError
  end.

(** No access token is passed to [decode], so a token with an [at_hash]
    claim is refused. *)
Definition validate_at_hash (claims : Doc) : Exn + unit :=
  match claims !! "at_hash" with
  | None => inr tt
  | Some _ => inl JWTError
  end.

Definition decode (token : Token) (key : string) (now : Z) : Exn + Doc :=
  match token with
  | Malformed _ => inl JWTError
  | Signed claims k =>
      if negb (bool_decide (k = key)) then inl JWTError
      else
        _ ← validate_iat claims;
        _ ← validate_nbf claims now;
        _ ← validate_exp claims now;
        _ ← validate_aud claims;
        _ ← validate_sub claims;
        _ ← validate_jti claims;
        _ ← validate_at_hash claims;
        inr claims
  end.

End jwt.

Section Security.
Context `{PwdContext} `{Settings}.

Definition verify_password (plain_password hashed_password : string)
  : Exn + bool := pwd_verify plain_password hashed_password.

Definition get_password_hash (salt password : string) : string :=
  pwd_hash salt password.

(** [expires_delta] is used when it is given and not the zero duration;
    otherwise the token lives fifteen minutes.  [now] is [utcnow()]. *)
Definition create_access_token (data : Doc) (expires_delta : option Z)
    (now : Z) : jwt.Token :=
  let to_encode := data in
  let expire :=
    match expires_delta with
    | Some d => if d =? 0 then now + minutes 15 else now + d
    | None => now + minutes 15
    end in
  let to_encode := <["exp" := VTime expire]> to_encode in
  jwt.encode to_encode SECRET_KEY.

(** [decode_token]: a [JWTError] gives [None]; any other exception of the
    library passes through. *)
Definition decode_token (token : jwt.Token) (now : Z) : Exn + option Doc :=
  match jwt.decode token SECRET_KEY now with
  | inr payload => inr (Some payload)
  | inl JWTError => inr None
  | inl e => inl e
  end.

End Security.

(** [str(v)] for the values an [_id] or [id] can hold. *)
Definition py_str (v : Value) : string :=
  match v with
  | VId o => o
  | VStr s => s
  | VNull => "None"
  | VBool true => "True"
  | VBool false => "False"
  | VInt z => pretty z
  | VTime t => pretty t
  end.

(** ** The user repository ([app/repository/user.py]) *)

Module UserRepository.
Section Repo.
Context `{PwdContext} {emails : EmailValidator}.

(** [get_collection]: it awaits what [get_database()] returns, and
    [get_database] is a plain function whose result, the database handle,
    is no awaitable. *)
Definition get_collection : M unit := await_plain_value.

Definition get (user_id : string) : M (option UserInDB.t) :=
  _ ← get_collection;
  oid ← lift (ObjectId.make user_id);
  user ← Mongo.find_one {[ "_id" := VId oid ]};
  lift (UserInDB.of_found user).

Definition get_by_email (email : string) : M (option UserInDB.t) :=
  _ ← get_collection;
  user ← Mongo.find_one {[ "email" := VStr email ]};
  lift (UserInDB.of_found user).

Definition get_by_username (username : string) : M (option UserInDB.t) :=
  _ ← get_collection;
  user ← Mongo.find_one {[ "username" := VStr username ]};
  lift (UserInDB.of_found user).

Definition create (inserted_id salt : string) (user : UserCreate.t)
  : M UserInDB.t :=
  _ ← get_collection;
  let hashed_password := get_password_hash salt (UserCreate.password user) in
  let user_dict := UserCreate.dump_exclude_password user in
  let user_dict := <["hashed_password" := VStr hashed_password]> user_dict in
  oid ← Mongo.insert_one inserted_id user_dict;
  created_user ← Mongo.find_one {[ "_id" := oid ]};
  match created_user with
  | Some d => lift (UserInDB.make d)
  | None => raise TypeError
  end.

(** [get_password_hash(update_data.pop("password"))]: the hashing
    library refuses a secret that is not a string. *)
Definition rehash (salt : string) (update_data : Doc) : Exn + Doc :=
  match update_data !! "password" with
  | None => inr update_data
  | Some (VStr p) =>
      inr (<["hashed_password" := VStr (get_password_hash salt p)]>
             (delete "password" update_data))
  | Some _ => inl TypeError
  end.

Definition update (salt : string) (user_id : string) (user : UserUpdate.t)
  : M (option UserInDB.t) :=
  _ ← get_collection;
  let update_data := UserUpdate.dict_exclude_unset user in
  update_data ← lift (rehash salt update_data);
  if decide (update_data = ∅) then get user_id
  else
    oid ← lift (ObjectId.make user_id);
    _ ← Mongo.update_one {[ "_id" := VId oid ]} update_data;
    get user_id.

Definition delete (user_id : string) : M bool :=
  _ ← get_collection;
  oid ← lift (ObjectId.make user_id);
  n ← Mongo.delete_one {[ "_id" := VId oid ]};
  mret (0 <? n).

Definition authenticate (username password : string)
  : M (option UserInDB.t) :=
  user ← get_by_username username;
  match user with
  | None => mret None
  | Some u =>
      hashed_password ← lift (UserInDB.hashed_password u);
      ok ← lift (verify_password password hashed_password);
      if negb ok then mret None else mret (Some u)
  end.

End Repo.
End UserRepository.

(** ** The user service ([app/services/user_service.py]) *)

(** The names the module binds: what its import statements bring in
    (lines 1-13) and the class it defines. *)
Module user_service.
Definition names : list string :=
  [ "Optional"; "List"; "Dict"; "Any"; "Union";
    "status"; "HTTPException"; "jsonable_encoder"; "ReturnDocument";
    "ObjectId"; "datetime"; "timedelta"; "get_database";
    "UserCreate"; "UserUpdate"; "UserInDB"; "UserResponse"; "Token";
    "TokenData"; "PaginatedResponse";
    "create_access_token"; "get_password_hash"; "verify_password";
    "settings"; "CRUDPaginatedMongo"; "UserService" ].
End user_service.

Module UserService.
Section Service.
Context `{PwdContext} `{Settings} {emails : EmailValidator}.

(** The methods that take [self] are those of a service instance over the
    users collection.

    [if not user] holds for [None] and for an empty document. *)
Definition _convert_to_response (user : option Doc)
  : Exn + option UserResponse.t :=
  match user with
  | None => inr None
  | Some u =>
      if decide (u = ∅) then inr None
      else
        match u !! "_id" with
        | None => inl KeyError
        | Some i =>
            r ← UserResponse.make (<["id" := VStr (py_str i)]> u);
            inr (Some r)
        end
  end.

Definition get_user (user_id : string) : M (option UserResponse.t) :=
  if negb (ObjectId.is_valid user_id) then mret None
  else
    oid ← lift (ObjectId.make user_id);
    user ← Mongo.find_one {[ "_id" := VId oid ]};
    lift (_convert_to_response user).

Definition get_by_email (email : Value) : M (option UserResponse.t) :=
  user ← Mongo.find_one {[ "email" := email ]};
  lift (_convert_to_response user).

Definition get_by_username (username : Value) : M (option UserResponse.t) :=
  user ← Mongo.find_one {[ "username" := username ]};
  lift (_convert_to_response user).

Definition get_users (skip limit : Z) (current_user : option UserResponse.t)
  : M (PaginatedResponse.t (option UserResponse.t)) :=
  let limit := Z.max 1 (Z.min 100 limit) in
  let all_users : M (PaginatedResponse.t (option UserResponse.t)) :=
    total ← Mongo.count_documents ∅;
    c ← read_collection;
    skipped ← lift (Mongo.skip skip (Mongo.find ∅ c));
    let cursor := Mongo.limit limit skipped in
    users ← lift (traverse (λ user, _convert_to_response (Some user)) cursor);
    mret {| PaginatedResponse.items := users;
            PaginatedResponse.total := total;
            PaginatedResponse.page :=
              if 0 <? limit then skip / limit + 1 else 1;
            PaginatedResponse.page_size :=
              if users is _ :: _
              then Z.min limit (Z.of_nat (length users)) else 0;
            PaginatedResponse.total_pages :=
              if 0 <? limit then (total + limit - 1) / limit else 1 |} in
  match current_user with
  | Some cu =>
      if negb (UserResponse.is_superuser cu) then
        user ← get_user (UserResponse.id cu);
        mret {| PaginatedResponse.items :=
                  if user is Some _ then [user] else [];
                PaginatedResponse.total := if user is Some _ then 1 else 0;
                PaginatedResponse.page := 1;
                PaginatedResponse.page_size := 1;
                PaginatedResponse.total_pages := 1 |}
      else all_users
  | None => all_users
  end.

(** [created] and [updated] are the two readings of the clock. *)
Definition create_user (inserted_id salt : string) (created updated : Z)
    (user_in : UserCreate.t) : M (option UserResponse.t) :=
  by_email ← get_by_email (VStr (UserCreate.email user_in));
  if by_email is Some _ then mret None
  else
    by_username ← get_by_username (VStr (UserCreate.username user_in));
    if by_username is Some _ then mret None
    else
      let hashed_password :=
        get_password_hash salt (UserCreate.password user_in) in
      let user_data := UserCreate.dump_exclude_password user_in in
      let user_data := <["hashed_password" := VStr hashed_password]> user_data in
      let user_data := <["created_at" := VTime created]> user_data in
      let user_data := <["updated_at" := VTime updated]> user_data in
      oid ← Mongo.insert_one inserted_id user_data;
      created_user ← Mongo.find_one {[ "_id" := oid ]};
      lift (_convert_to_response created_user).

(** The three static methods that follow use the name [UserRepository],
    which the module does not bind. *)
Definition update_user (salt : string) (user_id : string)
    (user_update : UserUpdate.t) : M (option UserInDB.t) :=
  _ ← lift (py.global_name user_service.names "UserRepository");
  existing_user ← UserRepository.get user_id;
  match existing_user with
  | None => raise (HTTPException 404 "User not found" [])
  | Some existing =>
      _ ← match UserUpdate.email user_update with
          | Given email =>
              if negb (bool_decide (email = ""))
                 && negb (bool_decide (email = UserResponse.email existing))
              then
                email_exists ← UserRepository.get_by_email email;
                if email_exists is Some _
                then raise (HTTPException 400 "Email already registered" [])
                else mret tt
              else mret tt
          | _ => mret tt
          end;
      _ ← match UserUpdate.username user_update with
          | Given username =>
              if negb (bool_decide (username = ""))
                 && negb (bool_decide
                            (username = UserResponse.username existing))
              then
                username_exists ← UserRepository.get_by_username username;
                if username_exists is Some _
                then raise (HTTPException 400 "Username already taken" [])
                else mret tt
              else mret tt
          | _ => mret tt
          end;
      UserRepository.update salt user_id user_update
  end.

Definition delete_user (user_id : string) : M bool :=
  _ ← lift (py.global_name user_service.names "UserRepository");
  existing_user ← UserRepository.get user_id;
  match existing_user with
  | None => raise (HTTPException 404 "User not found" [])
  | Some _ => UserRepository.delete user_id
  end.

Definition authenticate_user (username password : string) : M UserInDB.t :=
  _ ← lift (py.global_name user_service.names "UserRepository");
  user ← UserRepository.authenticate username password;
  match user with
  | None =>
      raise (HTTPException 401 "Incorrect username or password"
               [("WWW-Authenticate", "Bearer")])
  | Some u => mret u
  end.

Definition create_access_token_for_user (user : UserInDB.t) (now : Z)
  : jwt.Token :=
  let access_token_expires := minutes ACCESS_TOKEN_EXPIRE_MINUTES in
  create_access_token {[ "sub" := VStr (UserResponse.username user) ]}
    (Some access_token_expires) now.

End Service.
End UserService.

(** ** The auth dependency chain ([app/core/security.py]) *)

Section Dependencies.
Context `{PwdContext} `{Settings} {emails : EmailValidator}.

Definition credentials_exception : Exn :=
  HTTPException 401 "Could not validate credentials"
    [("WWW-Authenticate", "Bearer")].

(** [get_current_user]: the user is looked up with
    [UserService.get_by_username(username=username)], the method taken
    from the class and called with the one keyword argument. *)
Definition get_current_user (token : jwt.Token) (now : Z)
  : M UserResponse.t :=
  payload ← lift (decode_token token now);
  match payload with
  | None => raise credentials_exception
  | Some payload =>
      match payload !! "sub" with
      | None | Some VNull => raise credentials_exception
      | Some username =>
          _ ← lift (py.bind_arguments ["self"; "username"] [] 0 ["username"]);
          user ← UserService.get_by_username username;
          match user with
          | None => raise credentials_exception
          | Some u => mret u
          end
      end
  end.

Definition get_current_active_user (token : jwt.Token) (now : Z)
  : M UserResponse.t :=
  current_user ← get_current_user token now;
  if UserResponse.disabled current_user
  then raise (HTTPException 400 "Inactive user" [])
  else mret current_user.

Definition get_current_active_superuser (token : jwt.Token) (now : Z)
  : M UserResponse.t :=
  current_user ← get_current_active_user token now;
  if negb (UserResponse.is_superuser current_user)
  then raise (HTTPException 403 "The user doesn't have enough privileges" [])
  else mret current_user.

End Dependencies.

(** ** The application shell ([app/main.py]): outcomes as HTTP responses *)

Inductive HttpResponse (B : Type) :=
| Success (status_code : Z) (body : B)
| Failure (status_code : Z) (detail : string).
Arguments Success {B}.
Arguments Failure {B}.

(** The exception handlers: an [HTTPException] keeps its status, a driver
    error and anything else become a generic 500. *)
Definition exception_response {B} (e : Exn) : HttpResponse B :=
  match e with
  | HTTPException status_code detail _ => Failure status_code detail
  | DuplicateKeyError => Failure 500 "Database operation failed"
  | _ => Failure 500 "Internal server error"
  end.

(** A route declared with [status_code] and a response model: the value
    the handler returns is validated against the model; a value that does
    not fit is an unhandled error. *)
Definition serve {A B} (status_code : Z) (response_model : A → Exn + B)
    (handler : M A) (c : Collection) : HttpResponse B * Collection :=
  match handler c with
  | (inr a, c') =>
      match response_model a with
      | inr b => (Success status_code b, c')
      | inl e => (exception_response e, c')
      end
  | (inl e, c') => (exception_response e, c')
  end.

(** [response_model=UserResponse] *)
Definition as_user (v : option UserResponse.t) : Exn + UserResponse.t :=
  match v with Some u => inr u | None => inl ValidationError end.

(** The keys of the dict that [get_users] returns. *)
Definition get_users_keys : list string :=
  ["items"; "total"; "page"; "page_size"; "total_pages"].

(** The keys under which [PaginatedResponse] reads its fields:
    [page_size] and [total_pages] are declared with the aliases
    [pageSize] and [totalPages], and the model is not set to populate by
    name. *)
Definition PaginatedResponse_keys : list string :=
  ["items"; "total"; "page"; "pageSize"; "totalPages"].

(** [response_model=PaginatedResponse[UserResponse]], applied to the dict
    of [get_users]: every field is required. *)
Definition as_page (v : PaginatedResponse.t (option UserResponse.t))
  : Exn + PaginatedResponse.t UserResponse.t :=
  if forallb (λ k, bool_decide (k ∈ get_users_keys)) PaginatedResponse_keys
  then
    its ← traverse as_user (PaginatedResponse.items v);
    inr {| PaginatedResponse.items := its;
           PaginatedResponse.total := PaginatedResponse.total v;
           PaginatedResponse.page := PaginatedResponse.page v;
           PaginatedResponse.page_size := PaginatedResponse.page_size v;
           PaginatedResponse.total_pages := PaginatedResponse.total_pages v |}
  else inl ValidationError.

(** ** The auth routes ([app/api/v1/endpoints/auth.py]) *)

Module auth.
Section Routes.
Context `{PwdContext} `{Settings} {emails : EmailValidator}.

(** [test_token]: the body is a comment, so the handler returns [None]. *)
Definition test_token : M (option UserResponse.t) := mret None.

(** [create_user]: [UserService.create_user(user_in)], the method taken
    from the class and called with the one positional argument. *)
Definition create_user (inserted_id salt : string) (created updated : Z)
    (user_in : UserCreate.t) : M (option UserResponse.t) :=
  _ ← lift (py.bind_arguments ["self"; "user_in"] [] 1 []);
  user ← UserService.create_user inserted_id salt created updated user_in;
  mret user.

(** [POST /auth/register], declared with status 201. *)
Definition register (inserted_id salt : string) (created updated : Z)
    (user_in : UserCreate.t)
  : Collection → HttpResponse UserResponse.t * Collection :=
  serve 201 as_user (create_user inserted_id salt created updated user_in).

Definition login_access_token (username password : string) (now : Z)
  : M (jwt.Token * string) :=
  user ← UserService.authenticate_user username password;
  let access_token := UserService.create_access_token_for_user user now in
  mret (access_token, "bearer").

(** [POST /auth/login/access-token] *)
Definition login (username password : string) (now : Z)
  : Collection → HttpResponse (jwt.Token * string) * Collection :=
  serve 200 inr (login_access_token username password now).

(** [POST /auth/test-token] *)
Definition test_token_route
  : Collection → HttpResponse UserResponse.t * Collection :=
  serve 200 as_user test_token.

End Routes.
End auth.

(** ** The user routes ([app/api/v1/endpoints/users.py]) *)

Module users.

Inductive Method := GET | PUT | DELETE.

#[global] Instance Method_eq_dec : EqDecision Method.
Proof. solve_decision. Defined.

(** The path of a route below the router prefix. *)
Inductive Path :=
| Root                    (* "/" *)
| Param (name : string)   (* "/{name}" *)
| Fixed (segment : string).

Inductive Endpoint :=
| read_users_route
| read_user_by_id_route
| read_user_me_route
| update_user_me_route
| delete_user_me_route.

(** The routes in the order the module declares them. *)
Definition routes : list (Method * Path * Endpoint) :=
  [ (GET, Root, read_users_route);
    (GET, Param "user_id", read_user_by_id_route);
    (GET, Fixed "me", read_user_me_route);
    (PUT, Fixed "me", update_user_me_route);
    (DELETE, Fixed "me", delete_user_me_route) ].

Fixpoint has_slash (s : string) : bool :=
  match s with
  | EmptyString => false
  | String a s' => bool_decide (a = "/"%char) || has_slash s'
  end.

(** Whether a route path accepts the request segment, and the path
    parameter it binds: a parameter takes any non-empty segment. *)
Definition accepts (p : Path) (segment : string) : option (option string) :=
  match p with
  | Root => if bool_decide (segment = "") then Some None else None
  | Param _ =>
      if bool_decide (segment = "") || has_slash segment then None
      else Some (Some segment)
  | Fixed s => if bool_decide (segment = s) then Some None else None
  end.

(** The router hands a request to the first declared route that accepts
    it. *)
Fixpoint resolve_in (rs : list (Method * Path * Endpoint)) (m : Method)
    (segment : string) : option (Endpoint * option string) :=
  match rs with
  | [] => None
  | (m', p, e) :: rs' =>
      if bool_decide (m = m') then
        match accepts p segment with
        | Some param => Some (e, param)
        | None => resolve_in rs' m segment
        end
      else resolve_in rs' m segment
  end.

Definition resolve := resolve_in routes.

Section Routes.
Context `{PwdContext} `{Settings} {emails : EmailValidator}.

(** [read_users] builds a service instance and calls [get_users] on it. *)
Definition read_users (skip limit : Z) (current_user : UserResponse.t)
  : M (PaginatedResponse.t (option UserResponse.t)) :=
  result ← UserService.get_users skip limit (Some current_user);
  mret result.

(** [read_user_by_id]: [UserService.get_user(user_id)], the method taken
    from the class and called with the one positional argument. *)
Definition read_user_by_id (user_id : string) (current_user : UserResponse.t)
  : M (option UserResponse.t) :=
  if negb (ObjectId.is_valid user_id)
  then raise (HTTPException 404 "User not found" [])
  else
    _ ← lift (py.bind_arguments ["self"; "user_id"] [] 1 []);
    user ← UserService.get_user user_id;
    match user with
    | None => raise (HTTPException 404 "User not found" [])
    | Some u =>
        if negb (UserResponse.is_superuser current_user)
           && negb (bool_decide (UserResponse.id u = UserResponse.id current_user))
        then raise (HTTPException 403 "Not enough permissions" [])
        else mret (Some u)
    end.

Definition read_user_me (current_user : UserResponse.t)
  : M (option UserResponse.t) :=
  mret (Some current_user).

(** [update_user_me]: when a password is given the handler assigns
    [user_in.hashed_password], a field [UserUpdate] does not declare, which
    the schema object refuses. *)
Definition update_user_me (salt : string) (user_in : UserUpdate.t)
    (current_user : UserResponse.t) : M (option UserInDB.t) :=
  _ ← (if truthy_field (UserUpdate.password user_in)
       then raise ValueError else mret tt);
  UserService.update_user salt (UserResponse.id current_user) user_in.

Definition delete_user_me (current_user : UserResponse.t) : M unit :=
  _ ← UserService.delete_user (UserResponse.id current_user);
  mret tt.

Inductive Body :=
| UserBody (u : UserResponse.t)
| PageBody (p : PaginatedResponse.t UserResponse.t).

(** A [GET] request below [/users]: route resolution, then the
    dependency [get_current_active_user], then the query constraints of
    the list route, then the handler. *)
Definition handle_get (segment : string) (skip limit : Z)
    (token : jwt.Token) (now : Z)
  : Collection → HttpResponse Body * Collection :=
  match resolve GET segment with
  | Some (read_users_route, _) =>
      serve 200 (λ v, PageBody <$> as_page v)
        (current_user ← get_current_active_user token now;
         if (skip <? 0) || (limit <? 1) || (100 <? limit)
         then raise (HTTPException 422 "Validation Error" [])
         else read_users skip limit current_user)
  | Some (read_user_by_id_route, Some user_id) =>
      serve 200 (λ v, UserBody <$> as_user v)
        (current_user ← get_current_active_user token now;
         read_user_by_id user_id current_user)
  | Some (read_user_me_route, _) =>
      serve 200 (λ v, UserBody <$> as_user v)
        (current_user ← get_current_active_user token now;
         read_user_me current_user)
  | _ => λ c, (Failure 404 "Not Found", c)
  end.

(** The module's own copy of the token dependency ([users.py], lines
    20-38), which no route uses: it decodes the token itself and looks the
    subject up through a service instance. *)
Definition get_current_user (token : jwt.Token) (now : Z)
  : M UserResponse.t :=
  let credentials_exception :=
    HTTPException 401 "Could not validate credentials"
      [("WWW-Authenticate", "Bearer")] in
  match jwt.decode token SECRET_KEY now with
  | inl JWTError => raise credentials_exception
  | inl e => raise e
  | inr payload =>
      match payload !! "sub" with
      | None | Some VNull => raise credentials_exception
      | Some username =>
          user ← UserService.get_by_username username;
          match user with
          | None => raise credentials_exception
          | Some u => mret u
          end
      end
  end.

(** Whether some route, of any method, has a path for the segment. *)
Definition path_known (segment : string) : bool :=
  existsb (λ r, bool_decide (is_Some (accepts r.1.2 segment))) routes.

(** A [PUT] request below [/users] with the body [user_in]: the
    dependency, then the constraints of the body, then the handler. *)
Definition handle_put (salt : string) (segment : string)
    (user_in : UserUpdate.t) (token : jwt.Token) (now : Z)
  : Collection → HttpResponse UserResponse.t * Collection :=
  match resolve PUT segment with
  | Some (update_user_me_route, _) =>
      serve 200 as_user
        (current_user ← get_current_active_user token now;
         if negb (UserUpdate.valid user_in)
         then raise (HTTPException 422 "Validation Error" [])
         else update_user_me salt user_in current_user)
  | _ => λ c, (if path_known segment
               then Failure 405 "Method Not Allowed"
               else Failure 404 "Not Found", c)
  end.

(** A [DELETE] request below [/users]; the route answers 204 with an
    empty body.  A path that only other methods serve is answered 405. *)
Definition handle_delete (segment : string) (token : jwt.Token) (now : Z)
  : Collection → HttpResponse unit * Collection :=
  match resolve DELETE segment with
  | Some (delete_user_me_route, _) =>
      serve 204 inr
        (current_user ← get_current_active_user token now;
         delete_user_me current_user)
  | _ => λ c, (if path_known segment
               then Failure 405 "Method Not Allowed"
               else Failure 404 "Not Found", c)
  end.

End Routes.
End users.

(** ** Requests to the two routers *)

Module app.

(** What the runtime draws from outside while it serves one request. *)
Record Draws := {
  inserted_id : string;
  salt : string;
  created : Z;
  updated : Z;
  now : Z
}.

Inductive Request :=
| PostRegister (user_in : UserCreate.t)
| PostLogin (username password : string)
| PostTestToken
| GetUsers (segment : string) (skip limit : Z) (token : jwt.Token)
| PutUsers (segment : string) (user_in : UserUpdate.t) (token : jwt.Token)
| DeleteUsers (segment : string) (token : jwt.Token).

(** A response without its body. *)
Definition status {B} (r : HttpResponse B) : HttpResponse unit :=
  match r with
  | Success status_code _ => Success status_code tt
  | Failure status_code detail => Failure status_code detail
  end.

Section Handle.
Context `{PwdContext} `{Settings} {emails : EmailValidator}.

Definition handle (d : Draws) (r : Request) (c : Collection)
  : HttpResponse unit * Collection :=
  match r with
  | PostRegister user_in =>
      let out := auth.register (inserted_id d) (salt d) (created d)
                   (updated d) user_in c in
      (status out.1, out.2)
  | PostLogin username password =>
      let out := auth.login username password (now d) c in
      (status out.1, out.2)
  | PostTestToken =>
      let out := auth.test_token_route c in (status out.1, out.2)
  | GetUsers segment skip limit token =>
      let out := users.handle_get segment skip limit token (now d) c in
      (status out.1, out.2)
  | PutUsers segment user_in token =>
      let out := users.handle_put (salt d) segment user_in token (now d) c in
      (status out.1, out.2)
  | DeleteUsers segment token =>
      let out := users.handle_delete segment token (now d) c in
      (status out.1, out.2)
  end.

End Handle.
End app.

(** ** The application shell ([app/main.py]): allowed CORS origins *)

Module main.

(** The [allow_origins] argument of the CORS middleware, from the setting
    [BACKEND_CORS_ORIGINS]. *)
Definition allow_origins (BACKEND_CORS_ORIGINS : string) : list string :=
  if bool_decide (BACKEND_CORS_ORIGINS = "*") then ["*"]
  else py.strip <$> py.split "," BACKEND_CORS_ORIGINS.

End main.

(** ** The database handle ([app/db/session.py]) *)

Module session.

(** The process-wide [db] object; a client and a database handle are
    identified by the number of the connection attempt that made them. *)
Record DataBase := { client : option nat; database : option nat }.

Definition db_initial : DataBase := {| client := None; database := None |}.

(** Where a connection attempt fails, if it does. *)
Inductive Attempt :=
| ClientFails      (* [AsyncIOMotorClient(url)] raises *)
| DatabaseFails    (* [db.client[name]] raises *)
| PingFails        (* the [ping] command raises *)
| PingAnswers.

Inductive SessionError := ConnectionError | RuntimeError.

(** [connect_to_mongo]: the handles are assigned as they are made; on a
    failure the cleanup runs only when [db.client] is set. *)
Definition connect_to_mongo (handle : nat) (attempt : Attempt)
    (db : DataBase) : (SessionError + nat) * DataBase :=
  let cleanup (db : DataBase) :=
    if client db is Some _ then {| client := None; database := None |}
    else db in
  match attempt with
  | ClientFails => (inl ConnectionError, cleanup db)
  | DatabaseFails =>
      (inl ConnectionError,
       cleanup {| client := Some handle; database := database db |})
  | PingFails =>
      (inl ConnectionError,
       cleanup {| client := Some handle; database := Some handle |})
  | PingAnswers =>
      (inr handle, {| client := Some handle; database := Some handle |})
  end.

(** [close_mongo_connection]: whether or not closing the client raises,
    both handles are cleared. *)
Definition close_mongo_connection (db : DataBase) : DataBase :=
  if client db is Some _ then {| client := None; database := None |}
  else db.

Definition get_database (db : DataBase) : SessionError + nat :=
  match database db with
  | None => inl RuntimeError
  | Some d => inr d
  end.

(** The states the application's lifecycle can bring about. *)
Inductive reachable : DataBase → Prop :=
| reach_initial : reachable db_initial
| reach_connect handle attempt db :
    reachable db → reachable (connect_to_mongo handle attempt db).2
| reach_close db : reachable db → reachable (close_mongo_connection db).

End session.

(** ** Document base class ([app/db/base.py]) *)

Module PyObjectId.
(** [validate]: a [ValueError], never [InvalidId], for a malformed value. *)
Definition validate (v : string) : Exn + string :=
  if negb (ObjectId.is_valid v) then inl ValueError else ObjectId.make v.
End PyObjectId.

Module DocumentBase.
(** The [dict] override, applied to the dictionary [data] the base class
    produces: a null [_id] or [id] is dropped. *)
Definition dict (data : Doc) : Doc :=
  let data := if bool_decide (data !! "_id" = Some VNull)
              then delete "_id" data else data in
  if bool_decide (data !! "id" = Some VNull) then delete "id" data else data.
End DocumentBase.

(** ** The ticket classifier ([Experiment/ticketbot.py])

    The language models are parameters: the similarity scores of the
    embedder, [torch.argmax], the top answer of the NLI pipeline, and the
    comparison [>] of two scores. *)

Module ticketbot.

Definition category_map : list (string * string) :=
  [ ("Login Problem",
     "The user is facing a login problem due to incorrect credentials.");
    ("Password Reset Needed", "The user is requesting a password reset.");
    ("Subscription Cancellation",
     "The user wants to cancel their subscription.");
    ("Duplicate Charges",
     "The user is reporting that they have been charged twice.");
    ("Refund Request", "The user is requesting a refund.");
    ("Bug Report", "The user is reporting a bug in the application.");
    ("API Access Request",
     "The user is requesting access to the platform's API.") ].

(** [{v: k for k, v in category_map.items()}]: a later pair replaces an
    earlier one with the same description. *)
Definition reverse_map : gmap string string :=
  foldl (λ m kv, <[kv.2 := kv.1]> m) ∅ category_map.

Definition normalize_query (query : string) : string :=
  if (4 <? py.count_words query)%nat then query
  else ("The user is facing an issue: " +:+ query)%string.

Inductive Error :=
| IndexError     (* a list index out of range *)
| EmptyMax.      (* [max()] of an empty sequence, a ValueError *)

Section Models.
Context {Score : Type}.
Variable gt : Score → Score → bool.
Variable cosine_scores : string → list string → list Score.
Variable argmax : list Score → nat.
Variable nli_pipe : string → string * Score.

Record Verdict := { category : string; label : string; score : Score }.

(** [max(items, key=lambda x: x["score"])]: an item replaces the best so
    far only when its score is greater. *)
Fixpoint max_from (best : Verdict) (items : list Verdict) : Verdict :=
  match items with
  | [] => best
  | x :: items' =>
      max_from (if gt (score x) (score best) then x else best) items'
  end.

Definition max_by_score (items : list Verdict) : Error + Verdict :=
  match items with
  | [] => inl EmptyMax
  | x :: items' => inr (max_from x items')
  end.

Definition classify_with_embeddings (query : string)
    (descriptions : list string) : Error + (string * Score) :=
  let cosine := cosine_scores query descriptions in
  let top_idx := argmax cosine in
  match descriptions !! top_idx, cosine !! top_idx with
  | Some d, Some sc => inr (d, sc)
  | _, _ => inl IndexError
  end.

Definition nli_results (query : string) (top_descriptions : list string)
  : list Verdict :=
  (λ desc,
     let out := nli_pipe (query +:+ " </s></s> " +:+ desc)%string in
     {| category := desc; label := out.1; score := out.2 |})
  <$> top_descriptions.

Definition is_entailment (r : Verdict) : bool :=
  bool_decide (label r = "ENTAILMENT").

Definition refine_with_nli (query : string) (top_descriptions : list string)
  : Error + Verdict :=
  let results := nli_results query top_descriptions in
  let entailments := List.filter is_entailment results in
  if entailments is _ :: _ then max_by_score entailments
  else max_by_score results.

Record Classification := {
  category_name : string;
  semantic_score : Score;
  nli_score : Score;
  nli_label : string;
  description : string
}.

Definition classify_ticket (query : string) : Error + Classification :=
  let query := normalize_query query in
  match classify_with_embeddings query (category_map.*2) with
  | inl e => inl e
  | inr semantic_best =>
      match refine_with_nli query [semantic_best.1] with
      | inl e => inl e
      | inr refined =>
          inr {| category_name :=
                   default "Unknown" (reverse_map !! category refined);
                 semantic_score := semantic_best.2;
                 nli_score := score refined;
                 nli_label := label refined;
                 description := category refined |}
      end
  end.

End Models.
End ticketbot.

(** The values the stored documents hold under the field [k], in
    collection order. *)
Definition field_values (k : string) (c : Collection) : list Value :=
  omap (λ d : Doc, d !! k) c.

(** ** States reachable through the write operations *)

Section Reachable.
Context `{PwdContext} `{Settings} {emails : EmailValidator}.

(** The public write operations on the users collection, started on an
    empty collection: those of the user service, those of the repository,
    and the generic [create], [update] and [delete] that a service
    instance inherits from [CRUDPaginatedMongo] (its response model is
    [UserResponse]; [update] takes a schema object, here a [UserUpdate]).
    An operation that raises still counts with whatever it wrote
    before. *)
Inductive reachable : Collection → Prop :=
| reach_empty : reachable []
| reach_create_user c inserted_id salt created updated user_in :
    reachable c →
    reachable (UserService.create_user inserted_id salt created updated
                 user_in c).2
| reach_update_user c salt user_id user_update :
    reachable c →
    reachable (UserService.update_user salt user_id user_update c).2
| reach_delete_user c user_id :
    reachable c → reachable (UserService.delete_user user_id c).2
| reach_repository_create c inserted_id salt user :
    reachable c → reachable (UserRepository.create inserted_id salt user c).2
| reach_repository_update c salt user_id user :
    reachable c → reachable (UserRepository.update salt user_id user c).2
| reach_repository_delete c user_id :
    reachable c → reachable (UserRepository.delete user_id c).2
| reach_inherited_create c inserted_id (obj_in : Doc) :
    reachable c →
    reachable (CRUDPaginatedMongo.create UserResponse.make inserted_id
                 obj_in c).2
| reach_inherited_update c id (obj_in : UserUpdate.t) return_updated :
    reachable c →
    reachable (CRUDPaginatedMongo.update UserResponse.make id
                 (UserUpdate.dict obj_in) return_updated c).2
| reach_inherited_delete c id :
    reachable c → reachable (CRUDPaginatedMongo.delete id c).2.

(** A stored record keeps no [password] field, and its
    [hashed_password] is an output of the hash function. *)
Definition hash_only (d : Doc) : Prop :=
  d !! "password" = None
  ∧ ∃ salt password,
      d !! "hashed_password" = Some (VStr (get_password_hash salt password)).

Definition all_hash_only (c : Collection) : Prop := Forall hash_only c.

End Reachable.

(** [m] keeps the property [P] of the collection, however it ends. *)
Definition preserves {A} (P : Collection → Prop) (m : M A) : Prop :=
  ∀ c, P c → P (m c).2.

(** ** Stand-ins for the external primitives, used to run the model *)

Definition ends_with (suffix s : string) : bool :=
  bool_decide (String.substring (String.length s - String.length suffix)
                 (String.length suffix) s = suffix).

Definition demo_pwd_context : PwdContext :=
  {| pwd_hash salt password := ("$2b$" +:+ salt +:+ "$" +:+ password)%string;
     pwd_verify plain hashed := inr (ends_with ("$" +:+ plain) hashed) |}.

Definition demo_settings : Settings :=
  {| SECRET_KEY := "your-secret-key-here" |}.

Definition demo_email_validator : EmailValidator :=
  {| validate_email address :=
       if py.contains "@" address then Some address else None |}.

(** A registered user, the collection after her registration, and the
    token of her login, for running the model. *)
Definition demo_id : string := "507f1f77bcf86cd799439011".

Definition demo_alice : UserCreate.t :=
  {| UserCreate.email := "a@x.com";
     UserCreate.username := "alice";
     UserCreate.full_name := Some "Alice";
     UserCreate.role := USER;
     UserCreate.password := "longenough123" |}.

Definition demo_collection : Collection :=
  (UserService.create_user (H := demo_pwd_context)
     (emails := demo_email_validator)
     demo_id "c2FsdA" 1700000000000000 1700000000000001 demo_alice []).2.

Definition demo_token : jwt.Token :=
  create_access_token (H0 := demo_settings) {[ "sub" := VStr "alice" ]}
    (Some (minutes ACCESS_TOKEN_EXPIRE_MINUTES)) 1700000100000000.

(** * Properties *)

(** ** Running computations *)

(** Unfold the monad down to pairs of a result and a collection. *)
Ltac run_m :=
  repeat (progress (unfold mbind, M_bind, mret, M_ret, lift, raise,
                      read_collection, write_collection, Mongo.update_one,
                      Mongo.find_one, Mongo.count_documents;
                    cbv beta iota)).

Tactic Notation "run_m" "in" hyp(H) :=
  repeat (progress (unfold mbind, M_bind, mret, M_ret, lift, raise,
                      read_collection, write_collection, Mongo.update_one,
                      Mongo.find_one, Mongo.count_documents in H;
                    cbv beta iota in H)).

Lemma bind_returned {A B} (m : M A) (f : A → M B) c a c' :
  m c = (inr a, c') → (m ≫= f) c = f a c'.
Proof. intros E. unfold mbind, M_bind. by rewrite E. Qed.

Lemma bind_raised {A B} (m : M A) (f : A → M B) c e c' :
  m c = (inl e, c') → (m ≫= f) c = (inl e, c').
Proof. intros E. unfold mbind, M_bind. by rewrite E. Qed.

Lemma traverse_length {A B} (f : A → Exn + B) xs ys :
  traverse f xs = inr ys → length ys = length xs.
Proof.
  revert ys. induction xs as [|x xs IH]; intros ys; simpl.
  - by intros [= <-].
  - destruct (f x); [done|]. destruct (traverse f xs); [done|].
    intros [= <-]. simpl. f_equal. by apply IH.
Qed.

(** ** Pagination ([CRUDPaginatedMongo.get_multi]) *)

Section GetMulti.
Context {ModelType : Type}.
Variable model : Doc → Exn + ModelType.
Variable sort_by : list (string * Z) → list Doc → list Doc.
Hypothesis sort_by_perm : ∀ s l, sort_by s l ≡ₚ l.

Import CRUDPaginatedMongo.

Lemma ordered_length query sort c :
  length (ordered sort_by query sort c) = length (Mongo.find query c).
Proof.
  unfold ordered. destruct (truthy_list sort); [|done].
  by rewrite sort_by_perm.
Qed.

Lemma get_multi_eval p query sort c :
  PaginationParams.valid p →
  get_multi model sort_by p query sort c =
  (its ← traverse model (window sort_by p query sort c);
   inr {| PaginatedResponse.items := its;
          PaginatedResponse.total :=
            Z.of_nat (length (Mongo.find (default ∅ query) c));
          PaginatedResponse.page := PaginationParams.page p;
          PaginatedResponse.page_size := PaginationParams.page_size p;
          PaginatedResponse.total_pages :=
            (Z.of_nat (length (Mongo.find (default ∅ query) c))
             + PaginationParams.page_size p - 1)
            / PaginationParams.page_size p |}, c).
Proof.
  intros [Hpage [Hlo Hhi]]. unfold get_multi, window.
  unfold mbind at 1, M_bind, Mongo.count_documents. cbn.
  destruct (Z.eqb_spec (PaginationParams.page_size p) 0) as [E|_]; [lia|].
  unfold Mongo.skip, Mongo.limit, lift, mbind, M_bind, read_collection. cbn.
  destruct (Z.ltb_spec ((PaginationParams.page p - 1)
                        * PaginationParams.page_size p) 0) as [E|_]; [nia|].
  destruct (Z.eqb_spec (PaginationParams.page_size p) 0) as [E|_]; [lia|].
  rewrite Z.abs_eq by lia.
  by destruct (traverse model _).
Qed.

(** C3. For every page >= 1 and page_size in [1,100], every filter and
    every collection: the listing leaves the collection alone; a result
    carries the conversions of the documents that follow the first
    (page-1)*page_size ones of the cursor order (at most page_size of
    them), reports total = number of matching documents and
    total_pages = ceil(total/page_size), written as
    total <= total_pages*page_size < total+page_size; a result is
    produced whenever those documents convert; and when the skip reaches
    or exceeds the total the result is an empty page, not an error. *)
Theorem get_multi_paginates (p : PaginationParams.t) (query : option Doc)
    (sort : option (list (string * Z))) (c : Collection) :
  PaginationParams.valid p →
  let total := Z.of_nat (length (Mongo.find (default ∅ query) c)) in
  let skip := (PaginationParams.page p - 1) * PaginationParams.page_size p in
  let page_docs :=
    take (Z.to_nat (PaginationParams.page_size p))
      (drop (Z.to_nat skip) (ordered sort_by (default ∅ query) sort c)) in
  (get_multi model sort_by p query sort c).2 = c
  ∧ (∀ r, (get_multi model sort_by p query sort c).1 = inr r →
       traverse model page_docs = inr (PaginatedResponse.items r)
       ∧ PaginatedResponse.total r = total
       ∧ PaginatedResponse.page r = PaginationParams.page p
       ∧ PaginatedResponse.page_size r = PaginationParams.page_size p
       ∧ total ≤ PaginatedResponse.total_pages r * PaginationParams.page_size p
         < total + PaginationParams.page_size p)
  ∧ (∀ its, traverse model page_docs = inr its →
       ∃ r, (get_multi model sort_by p query sort c).1 = inr r
            ∧ PaginatedResponse.items r = its)
  ∧ (total ≤ skip →
       ∃ r, (get_multi model sort_by p query sort c).1 = inr r
            ∧ PaginatedResponse.items r = []).
Proof.
  intros Hp total skip page_docs.
  rewrite (get_multi_eval p query sort c Hp).
  fold total. change (window sort_by p query sort c) with page_docs.
  destruct Hp as [Hpage [Hlo Hhi]].
  split; [done|]. split; [|split].
  - intros r. cbn. destruct (traverse model page_docs) as [e|its]; [done|].
    cbn. intros [= <-]. cbn. repeat split; try done.
    + pose proof (Z.mod_pos_bound (total + PaginationParams.page_size p - 1)
                    (PaginationParams.page_size p)) as Hm.
      pose proof (Z.div_mod (total + PaginationParams.page_size p - 1)
                    (PaginationParams.page_size p)) as Hd.
      nia.
    + pose proof (Z.mod_pos_bound (total + PaginationParams.page_size p - 1)
                    (PaginationParams.page_size p)) as Hm.
      pose proof (Z.div_mod (total + PaginationParams.page_size p - 1)
                    (PaginationParams.page_size p)) as Hd.
      nia.
  - intros its Hits. cbn. rewrite Hits. cbn. by eexists.
  - intros Hskip.
    assert (page_docs = []) as ->.
    { unfold page_docs. rewrite drop_ge; [by rewrite take_nil|].
      rewrite ordered_length. unfold total in Hskip. lia. }
    cbn. by eexists.
Qed.

End GetMulti.

(** ** Facts about the collection operations *)

Lemma matches_singleton k v (d : Doc) :
  Mongo.matches {[ k := v ]} d = bool_decide (d !! k = Some v).
Proof.
  unfold Mongo.matches. rewrite map_to_list_singleton. cbn.
  by rewrite andb_true_r.
Qed.

Lemma matches_empty (d : Doc) : Mongo.matches ∅ d = true.
Proof. unfold Mongo.matches. by rewrite map_to_list_empty. Qed.

Lemma find_all (c : Collection) : Mongo.find ∅ c = c.
Proof.
  unfold Mongo.find. induction c as [|d c IH]; [done|].
  cbn. rewrite matches_empty. by f_equal.
Qed.

Lemma find_one_eval query c :
  Mongo.find_one query c = (inr (head (Mongo.find query c)), c).
Proof. done. Qed.

Lemma find_one_hit_matches query c d :
  head (Mongo.find query c) = Some d → Mongo.matches query d = true ∧ d ∈ c.
Proof.
  unfold Mongo.find. induction c as [|x c IH]; [done|]. cbn.
  destruct (Mongo.matches query x) eqn:E; cbn.
  - intros [= ->]. split; [done|]. apply list_elem_of_here.
  - intros Hd. destruct (IH Hd) as [? ?]. split; [done|].
    by apply list_elem_of_further.
Qed.

(** After an update of the first hit that keeps it a hit, the same query
    finds the updated document. *)
Lemma find_update_first query f c :
  (∀ d, Mongo.matches query d = true → Mongo.matches query (f d) = true) →
  head (Mongo.find query (Mongo.update_first query f c))
  = f <$> head (Mongo.find query c).
Proof.
  intros Hf. unfold Mongo.find. induction c as [|x c IH]; [done|]. cbn.
  destruct (Mongo.matches query x) eqn:E; cbn.
  - by rewrite (Hf _ E).
  - by rewrite E.
Qed.

Lemma update_first_miss query f c :
  head (Mongo.find query c) = None → Mongo.update_first query f c = c.
Proof.
  unfold Mongo.find. induction c as [|x c IH]; [done|]. cbn.
  destruct (Mongo.matches query x) eqn:E; cbn; [done|].
  intros Hn. f_equal. by apply IH.
Qed.

Lemma stored_lookup (doc : Doc) k :
  Mongo.stored doc !! k = Mongo.stored_value <$> doc !! k.
Proof. unfold Mongo.stored. by rewrite lookup_fmap. Qed.

Lemma stored_lookup_none (doc : Doc) k :
  doc !! k = None → Mongo.stored doc !! k = None.
Proof. intros E. by rewrite stored_lookup, E. Qed.

Lemma stored_lookup_id (doc : Doc) k o :
  doc !! k = Some (VId o) → Mongo.stored doc !! k = Some (VId o).
Proof. intros E. by rewrite stored_lookup, E. Qed.

Lemma stored_lookup_str (doc : Doc) k s :
  doc !! k = Some (VStr s) → Mongo.stored doc !! k = Some (VStr s).
Proof. intros E. by rewrite stored_lookup, E. Qed.

Lemma set_fields_keeps_id upd oid (d : Doc) :
  upd !! "_id" = None →
  Mongo.matches {[ "_id" := VId oid ]} d = true →
  Mongo.matches {[ "_id" := VId oid ]} (Mongo.set_fields upd d) = true.
Proof.
  intros Hu. rewrite !matches_singleton. intros Hd%bool_decide_eq_true.
  apply bool_decide_eq_true. unfold Mongo.set_fields.
  by rewrite lookup_union_r by by apply stored_lookup_none.
Qed.

(** ** Identifiers *)

Lemma make_is_valid user_id oid :
  ObjectId.make user_id = inr oid → ObjectId.is_valid user_id = true.
Proof. intros E. unfold ObjectId.is_valid. by rewrite E. Qed.

Lemma make_not_valid user_id :
  ObjectId.is_valid user_id = false → ObjectId.make user_id = inl InvalidId.
Proof.
  unfold ObjectId.is_valid, ObjectId.make.
  destruct (String.length user_id =? 24)%nat; [|done].
  by destruct (ObjectId.fromhex user_id).
Qed.

(** ** The repository and the three static methods of the service

    Every operation of [UserRepository] starts with [get_collection], and
    the three static methods of [UserService] start by evaluating the name
    [UserRepository]: none of them gets any further. *)

Section Raises.
Context `{PwdContext} `{Settings} {emails : EmailValidator}.

Lemma repository_get_raises user_id c :
  UserRepository.get user_id c = (inl TypeError, c).
Proof. done. Qed.

Lemma repository_get_by_email_raises email c :
  UserRepository.get_by_email email c = (inl TypeError, c).
Proof. done. Qed.

Lemma repository_get_by_username_raises username c :
  UserRepository.get_by_username username c = (inl TypeError, c).
Proof. done. Qed.

Lemma repository_create_raises inserted_id salt user c :
  UserRepository.create inserted_id salt user c = (inl TypeError, c).
Proof. done. Qed.

Lemma repository_update_raises salt user_id user c :
  UserRepository.update salt user_id user c = (inl TypeError, c).
Proof. done. Qed.

Lemma repository_delete_raises user_id c :
  UserRepository.delete user_id c = (inl TypeError, c).
Proof. done. Qed.

Lemma repository_authenticate_raises username password c :
  UserRepository.authenticate username password c = (inl TypeError, c).
Proof. done. Qed.

Lemma UserRepository_unbound :
  py.global_name user_service.names "UserRepository" = inl NameError.
Proof. by vm_compute. Qed.

Lemma update_user_raises salt user_id user_update c :
  UserService.update_user salt user_id user_update c = (inl NameError, c).
Proof.
  unfold UserService.update_user. by rewrite UserRepository_unbound.
Qed.

Lemma delete_user_raises user_id c :
  UserService.delete_user user_id c = (inl NameError, c).
Proof.
  unfold UserService.delete_user. by rewrite UserRepository_unbound.
Qed.

Lemma authenticate_user_raises username password c :
  UserService.authenticate_user username password c = (inl NameError, c).
Proof.
  unfold UserService.authenticate_user. by rewrite UserRepository_unbound.
Qed.

(** A document as the service stores it has the key [_id] and no key
    [id], which [UserInDB] requires: the schema object cannot be built
    from it. *)
Lemma stored_document_is_no_UserInDB (d : Doc) :
  d ≠ ∅ → d !! "id" = None →
  UserInDB.of_found (Some d) = inl ValidationError.
Proof.
  intros Hne Hid. unfold UserInDB.of_found, UserInDB.make, UserResponse.make.
  destruct (decide (d = ∅)); [done|]. by rewrite Hid.
Qed.

End Raises.

(** ** Malformed and unknown identifiers (the three [get] operations) *)

Section Get.
Context {ModelType : Type}.
Variable model : Doc → Exn + ModelType.
Context `{PwdContext} {emails : EmailValidator}.

(** The generic helper and the service answer "absent" for a malformed
    identifier. *)
Lemma get_malformed_absent user_id c :
  ObjectId.is_valid user_id = false →
  CRUDPaginatedMongo.get model user_id c = (inr None, c)
  ∧ UserService.get_user user_id c = (inr None, c).
Proof.
  intros E. unfold CRUDPaginatedMongo.get, UserService.get_user.
  by rewrite E.
Qed.

(** They answer "absent" for a well-formed identifier that no document
    carries. *)
Lemma get_unknown_absent user_id oid c :
  ObjectId.make user_id = inr oid →
  head (Mongo.find {[ "_id" := VId oid ]} c) = None →
  CRUDPaginatedMongo.get model user_id c = (inr None, c)
  ∧ UserService.get_user user_id c = (inr None, c).
Proof.
  intros Hmake Hnone.
  pose proof (make_is_valid _ _ Hmake) as Hv.
  unfold CRUDPaginatedMongo.get, UserService.get_user.
  rewrite Hv, Hmake. cbn.
  unfold lift, mbind, M_bind. rewrite !find_one_eval, Hnone. done.
Qed.

(** C8. [UserRepository.get] returns "absent" for no identifier: it
    raises [TypeError] for every one, malformed, unknown or stored, where
    its two siblings, the generic helper and the service's [get_user],
    return "absent" both for a malformed identifier and for a well-formed
    one that no document carries. *)
Theorem repository_get_raises_on_every_id (user_id : string)
    (c : Collection) :
  UserRepository.get user_id c = (inl TypeError, c)
  ∧ (ObjectId.is_valid user_id = false →
     CRUDPaginatedMongo.get model user_id c = (inr None, c)
     ∧ UserService.get_user user_id c = (inr None, c))
  ∧ (∀ oid, ObjectId.make user_id = inr oid →
       head (Mongo.find {[ "_id" := VId oid ]} c) = None →
       CRUDPaginatedMongo.get model user_id c = (inr None, c)
       ∧ UserService.get_user user_id c = (inr None, c)).
Proof.
  split; [apply repository_get_raises|].
  split; [apply get_malformed_absent|].
  intros oid. apply get_unknown_absent.
Qed.

End Get.

(** ** Authentication failures *)

Section Authenticate.
Context `{PwdContext} `{Settings} {emails : EmailValidator}.

(** C4. In every collection, for every username and password, stored or
    not, right or wrong: the repository's [authenticate] raises
    [TypeError], the service's [authenticate_user] raises [NameError], and
    the login route answers 500 "Internal server error"; the collection
    is untouched.  An unknown username and a wrong password are
    answered alike, but with a server error, never with the 401 the
    function spells out, and a right password is answered the same. *)
Theorem authenticate_never_unauthorized
    (c : Collection) (username password : string) (now : Z) :
  UserRepository.authenticate username password c = (inl TypeError, c)
  ∧ UserService.authenticate_user username password c = (inl NameError, c)
  ∧ auth.login username password now c
    = (Failure 500 "Internal server error", c).
Proof.
  split; [apply repository_authenticate_raises|].
  split; [apply authenticate_user_raises|].
  unfold auth.login, serve, auth.login_access_token.
  by rewrite (bind_raised _ _ _ _ _ (authenticate_user_raises _ _ c)).
Qed.

End Authenticate.

(** ** Partial updates *)

Lemma set_non_null_fields (obj_in d : Doc) k :
  Mongo.set_fields (filter (λ kv, kv.2 ≠ VNull) obj_in) d !! k
  = match obj_in !! k with
    | Some v => if decide (v = VNull) then d !! k
                else Some (Mongo.stored_value v)
    | None => d !! k
    end.
Proof.
  unfold Mongo.set_fields.
  destruct (obj_in !! k) as [v|] eqn:E.
  - destruct (decide (v = VNull)) as [->|Hv].
    + apply lookup_union_r, stored_lookup_none, map_lookup_filter_None.
      right. intros x Hx. cbn. rewrite E in Hx. injection Hx as <-. tauto.
    + apply lookup_union_Some_l. rewrite stored_lookup.
      by rewrite (map_lookup_filter_Some_2 _ _ _ _ E Hv).
  - apply lookup_union_r, stored_lookup_none, map_lookup_filter_None.
    by left.
Qed.

Section CrudUpdate.
Context {ModelType : Type}.
Variable model : Doc → Exn + ModelType.

(** The generic helper: a partial whose fields are all null writes
    nothing and answers like [get]. *)
Lemma crud_update_empty_partial id (obj_in : Doc) return_updated c :
  (∀ k v, obj_in !! k = Some v → v = VNull) →
  CRUDPaginatedMongo.update model id obj_in return_updated c
  = CRUDPaginatedMongo.get model id c
  ∧ (CRUDPaginatedMongo.get model id c).2 = c.
Proof.
  intros Hnull. unfold CRUDPaginatedMongo.update, CRUDPaginatedMongo.get.
  destruct (ObjectId.is_valid id) eqn:Hv; cbn; [|done].
  assert (filter (λ kv : string * Value, kv.2 ≠ VNull) obj_in = ∅) as ->.
  { apply map_eq. intros k. rewrite lookup_empty.
    apply map_lookup_filter_None. destruct (obj_in !! k) as [v|] eqn:E;
      [right|by left].
    intros x [= <-]. cbn. rewrite (Hnull k v E). tauto. }
  destruct (decide _) as [_|Hne]; [|done]. split; [done|].
  destruct (ObjectId.make id) as [e|oid]; [done|]. cbn.
  unfold lift, mbind, M_bind. rewrite find_one_eval.
  destruct (head _) as [d|]; [|done]. by destruct (model d).
Qed.

(** The generic helper: the stored record takes the non-null fields of
    the partial and keeps every other field. *)
Lemma crud_update_overwrites_non_null id oid (obj_in d : Doc) c :
  ObjectId.make id = inr oid →
  head (Mongo.find {[ "_id" := VId oid ]} c) = Some d →
  filter (λ kv : string * Value, kv.2 ≠ VNull) obj_in ≠ ∅ →
  ∃ d', CRUDPaginatedMongo.update model id obj_in true c
        = ((m ← model d'; inr (Some m)),
           Mongo.update_first {[ "_id" := VId oid ]} (λ _, d') c)
        ∧ ∀ k, d' !! k = match obj_in !! k with
                         | Some v => if decide (v = VNull) then d !! k
                                     else Some (Mongo.stored_value v)
                         | None => d !! k
                         end.
Proof.
  intros Hmake Hd Hne.
  pose proof (make_is_valid _ _ Hmake) as Hv.
  exists (Mongo.set_fields (filter (λ kv, kv.2 ≠ VNull) obj_in) d).
  split; [|intros k; apply set_non_null_fields].
  unfold CRUDPaginatedMongo.update. rewrite Hv. cbn.
  destruct (decide _) as [E|_]; [done|]. rewrite Hmake.
  unfold Mongo.find_one_and_update, Mongo.update_one, lift, mbind, M_bind,
    read_collection, write_collection.
  rewrite find_one_eval, Hd. cbn.
  assert (∀ f g, (∀ x, head (Mongo.find {[ "_id" := VId oid ]} c) = Some x
                      → f x = g x) →
          Mongo.update_first {[ "_id" := VId oid ]} f c
          = Mongo.update_first {[ "_id" := VId oid ]} g c) as Hext.
  { intros f g. unfold Mongo.find. clear. induction c as [|x c IH]; [done|].
    cbn. destruct (Mongo.matches _ x) eqn:E; cbn.
    - intros Hfg. by rewrite (Hfg x eq_refl).
    - intros Hfg. f_equal. by apply IH. }
  rewrite (Hext _ (λ _, Mongo.set_fields
                          (filter (λ kv, kv.2 ≠ VNull) obj_in) d)).
  - by destruct (model _).
  - intros x. rewrite Hd. by intros [= ->].
Qed.

End CrudUpdate.

Section RepositoryUpdate.
Context {ModelType : Type}.
Variable model : Doc → Exn + ModelType.
Context `{PwdContext} `{Settings} {emails : EmailValidator}.

(** C9. Neither update of the user path returns a record: for every
    identifier and every partial, empty or not, [UserRepository.update]
    raises [TypeError] and [UserService.update_user] raises [NameError],
    and nothing is written.  The generic helper, given the same partial,
    does what is asked: with no field of a value other than null it
    answers like [get] and writes nothing, and otherwise the stored
    record takes the non-null fields and keeps every other one. *)
Theorem repository_update_never_returns
    (salt user_id : string) (user : UserUpdate.t) (c : Collection) :
  UserRepository.update salt user_id user c = (inl TypeError, c)
  ∧ UserService.update_user salt user_id user c = (inl NameError, c)
  ∧ ((∀ k v, UserUpdate.dict user !! k = Some v → v = VNull) →
     ∀ return_updated,
       CRUDPaginatedMongo.update model user_id (UserUpdate.dict user)
         return_updated c
       = CRUDPaginatedMongo.get model user_id c
       ∧ (CRUDPaginatedMongo.get model user_id c).2 = c)
  ∧ (∀ oid d,
       ObjectId.make user_id = inr oid →
       head (Mongo.find {[ "_id" := VId oid ]} c) = Some d →
       filter (λ kv : string * Value, kv.2 ≠ VNull) (UserUpdate.dict user)
         ≠ ∅ →
       ∃ d', (CRUDPaginatedMongo.update model user_id (UserUpdate.dict user)
                true c).2
             = Mongo.update_first {[ "_id" := VId oid ]} (λ _, d') c
             ∧ ∀ k, d' !! k
                    = match UserUpdate.dict user !! k with
                      | Some v => if decide (v = VNull) then d !! k
                                  else Some (Mongo.stored_value v)
                      | None => d !! k
                      end).
Proof.
  split; [apply repository_update_raises|].
  split; [apply update_user_raises|]. split.
  - intros Hnull return_updated. by apply crud_update_empty_partial.
  - intros oid d Hmake Hd Hne.
    destruct (crud_update_overwrites_non_null model user_id oid
                (UserUpdate.dict user) d c Hmake Hd Hne) as (d' & Hrun & Hk).
    exists d'. split; [by rewrite Hrun|done].
Qed.

End RepositoryUpdate.

(** ** Stored passwords *)

Section PasswordInvariant.
Context `{PwdContext} `{Settings} {emails : EmailValidator}.

Lemma preserves_bind {A B} P (m : M A) (f : A → M B) :
  preserves P m → (∀ a, preserves P (f a)) → preserves P (m ≫= f).
Proof.
  intros Hm Hf c Hc. unfold mbind, M_bind.
  specialize (Hm c Hc). destruct (m c) as [[e|a] c']; [done|].
  by apply Hf.
Qed.

Lemma preserves_pure {A} P (m : M A) :
  (∀ c, (m c).2 = c) → preserves P m.
Proof. intros Hm c Hc. by rewrite Hm. Qed.

Lemma preserves_find_one P query : preserves P (Mongo.find_one query).
Proof. by apply preserves_pure. Qed.

Lemma preserves_lift {A} P (r : Exn + A) : preserves P (lift r).
Proof. by apply preserves_pure. Qed.

Lemma preserves_raise {A} P e : preserves P (raise (A:=A) e).
Proof. by apply preserves_pure. Qed.

Lemma preserves_ret {A} P (a : A) : preserves P (mret a).
Proof. by apply preserves_pure. Qed.

Lemma insert_one_hash_only oid (doc : Doc) :
  doc !! "_id" = None → hash_only doc →
  preserves all_hash_only (Mongo.insert_one oid doc).
Proof.
  intros Hid [Hp (salt & p & Hh)] c Hc. unfold all_hash_only in *.
  unfold Mongo.insert_one. run_m.
  rewrite Hid. destruct (Mongo.has_id _ c); [done|]. cbn.
  apply Forall_app. split; [done|]. apply Forall_singleton. split.
  - apply stored_lookup_none. by rewrite lookup_insert_ne.
  - exists salt, p. apply stored_lookup_str. by rewrite lookup_insert_ne.
Qed.

Lemma service_lookup_pure P query :
  preserves P (user ← Mongo.find_one query;
               lift (UserService._convert_to_response user)).
Proof.
  apply preserves_bind; [apply preserves_find_one|]. intros ?.
  apply preserves_lift.
Qed.

Lemma create_user_doc_hash_only salt created updated user_in :
  let user_data :=
    <["updated_at" := VTime updated]>
      (<["created_at" := VTime created]>
         (<["hashed_password" :=
              VStr (get_password_hash salt (UserCreate.password user_in))]>
            (UserCreate.dump_exclude_password user_in))) in
  user_data !! "_id" = None ∧ hash_only user_data.
Proof.
  cbn. unfold hash_only, UserCreate.dump_exclude_password.
  split; [|split].
  - by rewrite !lookup_insert_ne, lookup_singleton_ne.
  - by rewrite !lookup_insert_ne, lookup_singleton_ne.
  - exists salt, (UserCreate.password user_in).
    rewrite !lookup_insert_ne by done. by rewrite lookup_insert_eq.
Qed.

(** [create_user] adds no record that keeps a password other than as a
    hash. *)
Lemma create_user_hash_only inserted_id salt created updated user_in :
  preserves all_hash_only
    (UserService.create_user inserted_id salt created updated user_in).
Proof.
  unfold UserService.create_user.
  apply preserves_bind; [apply service_lookup_pure|].
  intros [?|]; [apply preserves_ret|].
  apply preserves_bind; [apply service_lookup_pure|].
  intros [?|]; [apply preserves_ret|].
  destruct (create_user_doc_hash_only salt created updated user_in)
    as [Hid Hh].
  apply preserves_bind; [by apply insert_one_hash_only|]. intros oid.
  apply service_lookup_pure.
Qed.

(** What [dict()] gives for a partial that supplies a password and
    nothing else. *)
Lemma dict_password_only password k :
  UserUpdate.dict {| UserUpdate.email := Unset; UserUpdate.username := Unset;
                     UserUpdate.full_name := Unset;
                     UserUpdate.password := Given password;
                     UserUpdate.role := Unset |} !! k
  = if decide (k = "password") then Some (VStr password)
    else if decide (k ∈ ["email"; "username"; "full_name"; "role"])
         then Some VNull else None.
Proof.
  unfold UserUpdate.dict. cbn.
  destruct (decide (k = "password")) as [->|Hp]; [done|].
  destruct (decide (k = "email")) as [->|He]; [done|].
  destruct (decide (k = "username")) as [->|Hu]; [done|].
  destruct (decide (k = "full_name")) as [->|Hf]; [done|].
  destruct (decide (k = "role")) as [->|Hr]; [done|].
  rewrite !lookup_insert_ne, lookup_singleton_ne by done.
  destruct (decide _) as [Hin|]; [|done].
  rewrite !elem_of_cons, elem_of_nil in Hin.
  by destruct Hin as [->|[->|[->|[->|[]]]]].
Qed.

Lemma update_first_elem query (d d' : Doc) (c : Collection) :
  head (Mongo.find query c) = Some d →
  d' ∈ Mongo.update_first query (λ _, d') c.
Proof.
  unfold Mongo.find. induction c as [|x c IH]; [done|]. cbn.
  destruct (Mongo.matches query x); cbn.
  - intros _. apply elem_of_cons. by left.
  - intros Hd. apply elem_of_cons. right. by apply IH.
Qed.

Lemma crud_update_collection {ModelType} (model : Doc → Exn + ModelType)
    id obj_in return_updated c :
  (CRUDPaginatedMongo.update model id obj_in return_updated c).2
  = (CRUDPaginatedMongo.update model id obj_in true c).2.
Proof.
  unfold CRUDPaginatedMongo.update.
  destruct (ObjectId.is_valid id); [|done]. cbn.
  destruct (decide (filter (λ kv : string * Value, kv.2 ≠ VNull) obj_in = ∅));
    [done|].
  unfold Mongo.find_one_and_update. run_m.
  destruct (ObjectId.make id) as [e|oid]; [done|]. cbn.
  destruct return_updated; [done|].
  destruct (head _) as [d|]; cbn; [|done].
  by destruct (model d), (model _).
Qed.

(** C6. The generic [update] that a service instance inherits writes
    what it is given: for every stored record and every password, a
    partial that supplies the password leaves the record with the
    plaintext under [password], its hash field as it was.  The state
    is reachable whenever the one before is, and it breaks the
    invariant.  The two updates that hash the password,
    [UserRepository.update] and [UserService.update_user], write
    nothing, for they raise before they reach the write; [create_user]
    keeps the invariant. *)
Theorem inherited_update_stores_plaintext
    (id oid password : string) (d : Doc) (return_updated : bool)
    (c : Collection) :
  ObjectId.make id = inr oid →
  head (Mongo.find {[ "_id" := VId oid ]} c) = Some d →
  let partial := {| UserUpdate.email := Unset; UserUpdate.username := Unset;
                    UserUpdate.full_name := Unset;
                    UserUpdate.password := Given password;
                    UserUpdate.role := Unset |} in
  let c' := (CRUDPaginatedMongo.update UserResponse.make id
               (UserUpdate.dict partial) return_updated c).2 in
  (reachable c → reachable c')
  ∧ c' = Mongo.update_first {[ "_id" := VId oid ]}
           (λ _, <["password" := VStr password]> d) c
  ∧ <["password" := VStr password]> d ∈ c'
  ∧ ¬ all_hash_only c'
  ∧ (∀ salt user_id user,
       (UserRepository.update salt user_id user c).2 = c
       ∧ (UserService.update_user salt user_id user c).2 = c)
  ∧ (∀ inserted_id salt created updated user_in,
       all_hash_only c →
       all_hash_only (UserService.create_user inserted_id salt created
                        updated user_in c).2).
Proof.
  intros Hmake Hd partial c'.
  assert (c' = Mongo.update_first {[ "_id" := VId oid ]}
                 (λ _, <["password" := VStr password]> d) c) as Hc'.
  { unfold c'. rewrite crud_update_collection.
    destruct (crud_update_overwrites_non_null UserResponse.make id oid
                (UserUpdate.dict partial) d c Hmake Hd) as (d' & Hrun & Hk).
    - intros E.
      assert (filter (λ kv : string * Value, kv.2 ≠ VNull)
                (UserUpdate.dict partial) !! "password"
              = Some (VStr password)) as Hl
        by by apply map_lookup_filter_Some_2.
      rewrite E in Hl. by rewrite lookup_empty in Hl.
    - assert (d' = <["password" := VStr password]> d) as ->; [|by rewrite Hrun].
      apply map_eq. intros k.
      rewrite Hk. unfold partial. rewrite dict_password_only.
      destruct (decide (k = "password")) as [->|Hp].
      + by rewrite lookup_insert_eq.
      + rewrite lookup_insert_ne by done. by destruct (decide _). }
  assert (<["password" := VStr password]> d ∈ c') as Hin
    by (rewrite Hc'; by eapply update_first_elem).
  split; [intros Hr; by apply reach_inherited_update|].
  split; [done|]. split; [done|]. split; [|split].
  - intros Hall. unfold all_hash_only in Hall.
    rewrite Forall_forall in Hall. destruct (Hall _ Hin) as [Hp _].
    by rewrite lookup_insert_eq in Hp.
  - intros salt user_id user.
    by rewrite repository_update_raises, update_user_raises.
  - intros inserted_id salt created updated user_in.
    apply create_user_hash_only.
Qed.

End PasswordInvariant.

(** ** Access tokens *)

Section Tokens.
Context `{Settings}.

Lemma timegm_mono a b : a ≤ b → timegm a ≤ timegm b.
Proof. intros Hab. unfold timegm. apply Z.div_le_mono; lia. Qed.

(** The claims a token minted for [subject] carries. *)
Lemma minted_claims subject ttl now :
  ttl ≠ 0 →
  create_access_token {[ "sub" := VStr subject ]} (Some ttl) now
  = jwt.Signed (<["exp" := VInt (timegm (now + ttl))]>
                  {[ "sub" := VStr subject ]}) SECRET_KEY.
Proof.
  intros Hne. unfold create_access_token.
  destruct (Z.eqb_spec ttl 0) as [?|_]; [done|].
  unfold jwt.encode, jwt.to_timestamp.
  rewrite lookup_insert_eq, insert_insert_eq.
  assert (∀ k, k ≠ "exp" → k ≠ "sub" →
          (<["exp" := VInt (timegm (now + ttl))]>
             ({[ "sub" := VStr subject ]} : Doc)) !! k = None) as Hk.
  { intros k ? ?. rewrite lookup_insert_ne by done.
    by rewrite lookup_singleton_ne. }
  rewrite (Hk "iat") by done. by rewrite (Hk "nbf").
Qed.

Lemma decode_minted subject exp t :
  decode_token (jwt.Signed (<["exp" := VInt exp]> {[ "sub" := VStr subject ]})
                  SECRET_KEY) t
  = if exp <? timegm t then inr None
    else inr (Some (<["exp" := VInt exp]> {[ "sub" := VStr subject ]})).
Proof.
  assert (∀ k, k ≠ "exp" → k ≠ "sub" →
          (<["exp" := VInt exp]> ({[ "sub" := VStr subject ]} : Doc)) !! k
          = None) as Hk.
  { intros k ? ?. rewrite lookup_insert_ne by done.
    by rewrite lookup_singleton_ne. }
  assert ((<["exp" := VInt exp]> ({[ "sub" := VStr subject ]} : Doc))
            !! "sub" = Some (VStr subject)) as Hsub.
  { rewrite lookup_insert_ne by done. by rewrite lookup_singleton_eq. }
  unfold decode_token, jwt.decode.
  rewrite bool_decide_eq_true_2 by done. cbn.
  unfold jwt.validate_iat, jwt.validate_nbf, jwt.validate_exp,
    jwt.validate_aud, jwt.validate_sub, jwt.validate_jti,
    jwt.validate_at_hash.
  rewrite (Hk "iat"), (Hk "nbf"), (Hk "aud"), (Hk "jti"), (Hk "at_hash"),
    Hsub, lookup_insert_eq by done. cbn.
  by destruct (exp <? timegm t).
Qed.

(** C7, as amended. For every subject and every ttl other than zero, a
    token minted at [now] decodes to the subject it was issued for at
    every time whose whole second is not after the whole second of
    now+ttl, so at every time up to and including the expiry instant;
    and decoding returns invalid at every time whose whole second is
    after it, so from one second past the expiry instant on. *)
Theorem token_accepted_through_expiry_second (subject : string)
    (ttl now t : Z) :
  ttl ≠ 0 →
  let token :=
    create_access_token {[ "sub" := VStr subject ]} (Some ttl) now in
  (timegm t ≤ timegm (now + ttl) →
     ∃ claims, decode_token token t = inr (Some claims)
               ∧ claims !! "sub" = Some (VStr subject))
  ∧ (timegm (now + ttl) < timegm t → decode_token token t = inr None)
  ∧ (t ≤ now + ttl → decode_token token t ≠ inr None)
  ∧ (now + ttl + 1000000 ≤ t → decode_token token t = inr None).
Proof.
  intros Hne token. unfold token. rewrite (minted_claims _ _ _ Hne).
  rewrite decode_minted.
  assert (timegm t ≤ timegm (now + ttl) →
          ∃ claims,
            (if timegm (now + ttl) <? timegm t then inr None
             else inr (Some (<["exp" := VInt (timegm (now + ttl))]>
                               ({[ "sub" := VStr subject ]} : Doc))))
            = (inr (Some claims) : Exn + option Doc)
            ∧ claims !! "sub" = Some (VStr subject)) as Hacc.
  { intros Hle. destruct (Z.ltb_spec (timegm (now + ttl)) (timegm t)); [lia|].
    eexists. split; [done|].
    rewrite lookup_insert_ne by done. by rewrite lookup_singleton_eq. }
  assert (timegm (now + ttl) < timegm t →
          (if timegm (now + ttl) <? timegm t then inr None
           else inr (Some (<["exp" := VInt (timegm (now + ttl))]>
                             ({[ "sub" := VStr subject ]} : Doc))))
          = (inr None : Exn + option Doc)) as Hrej.
  { intros Hlt. by destruct (Z.ltb_spec (timegm (now + ttl)) (timegm t));
      [|lia]. }
  split; [done|]. split; [done|]. split.
  - intros Hle. destruct (Hacc (timegm_mono _ _ Hle)) as (claims & -> & _).
    done.
  - intros Hge. apply Hrej. unfold timegm.
    replace t with ((t - 1000000) + 1 * 1000000) by lia.
    rewrite Z.div_add by lia.
    pose proof (Z.div_le_mono (now + ttl) (t - 1000000) 1000000). lia.
Qed.

End Tokens.

(** C7, the claim as stated fails: a token for "alice" minted at
    1700000000 s with a ttl of thirty minutes is still accepted at the
    expiry instant itself. *)
Lemma token_accepted_at_expiry_instant :
  let now := 1700000000000000 in
  let ttl := minutes 30 in
  let token := @create_access_token demo_settings
                 {[ "sub" := VStr "alice" ]} (Some ttl) now in
  ∃ claims, @decode_token demo_settings token (now + ttl)
            = inr (Some claims)
            ∧ claims !! "sub" = Some (VStr "alice").
Proof. eexists. split; vm_compute; reflexivity. Qed.

(** ** Registration *)

Lemma find_app query (c1 c2 : Collection) :
  Mongo.find query (c1 ++ c2) = Mongo.find query c1 ++ Mongo.find query c2.
Proof.
  unfold Mongo.find. induction c1; cbn; [done|].
  destruct (Mongo.matches _ _); cbn; by f_equal.
Qed.

Lemma head_find_snoc query (c : Collection) d :
  head (Mongo.find query (c ++ [d]))
  = match head (Mongo.find query c) with
    | Some x => Some x
    | None => if Mongo.matches query d then Some d else None
    end.
Proof.
  rewrite find_app. destruct (Mongo.find query c) eqn:E; cbn; [|done].
  by destruct (Mongo.matches query d).
Qed.

Lemma has_id_false_find key (c : Collection) :
  Mongo.has_id key c = false → head (Mongo.find {[ "_id" := key ]} c) = None.
Proof.
  unfold Mongo.has_id, Mongo.find. induction c as [|d c IH]; [done|]. cbn.
  rewrite matches_singleton. destruct (bool_decide _); [done|]. cbn. apply IH.
Qed.

Lemma bind_returned_inv {A B} (m : M A) (f : A → M B) c b c' :
  (m ≫= f) c = (inr b, c') →
  ∃ a c1, m c = (inr a, c1) ∧ f a c1 = (inr b, c').
Proof.
  unfold mbind, M_bind. destruct (m c) as [[e|a] c1]; [done|]. eauto.
Qed.

Section Register.
Context `{PwdContext} `{Settings} {emails : EmailValidator}.

Lemma service_lookup_eval query c :
  (user ← Mongo.find_one query;
   lift (UserService._convert_to_response user)) c
  = (UserService._convert_to_response (head (Mongo.find query c)), c).
Proof. done. Qed.

(** A document that answers a query with a binding is not taken for
    "absent". *)
Lemma convert_hit k v (c : Collection) x :
  head (Mongo.find {[ k := v ]} c) = Some x →
  UserService._convert_to_response (Some x) ≠ inr None.
Proof.
  intros [Hm _]%find_one_hit_matches.
  rewrite matches_singleton in Hm. apply bool_decide_eq_true in Hm.
  unfold UserService._convert_to_response.
  destruct (decide (x = ∅)) as [->|_]; [by rewrite lookup_empty in Hm|].
  destruct (x !! "_id"); [|done].
  by destruct (UserResponse.make _).
Qed.

(** What a successful [create_user] has done. *)
Lemma create_user_created inserted_id salt created updated user_in c u c' :
  UserService.create_user inserted_id salt created updated user_in c
    = (inr (Some u), c') →
  ∃ d, c' = c ++ [d]
       ∧ d !! "email" = Some (VStr (UserCreate.email user_in))
       ∧ d !! "username" = Some (VStr (UserCreate.username user_in))
       ∧ UserService._convert_to_response (Some d) = inr (Some u)
       ∧ head (Mongo.find {[ "email" := VStr (UserCreate.email user_in) ]} c)
         = None
       ∧ head (Mongo.find
                 {[ "username" := VStr (UserCreate.username user_in) ]} c)
         = None.
Proof.
  unfold UserService.create_user. intros Hrun.
  apply bind_returned_inv in Hrun as (by_email & c1 & Hm & Hrun).
  unfold UserService.get_by_email in Hm. rewrite service_lookup_eval in Hm.
  injection Hm as Hemail <-.
  destruct by_email as [?|]; [done|].
  apply bind_returned_inv in Hrun as (by_username & c1 & Hm & Hrun).
  unfold UserService.get_by_username in Hm. rewrite service_lookup_eval in Hm.
  injection Hm as Huser <-.
  destruct by_username as [?|]; [done|].
  apply bind_returned_inv in Hrun as (oid & c1 & Hins & Hrun).
  rewrite service_lookup_eval in Hrun.
  unfold Mongo.insert_one in Hins. run_m in Hins.
  set (user_data := <["updated_at" := _]> _) in *.
  assert (user_data !! "_id" = None) as Hnoid.
  { apply (create_user_doc_hash_only salt created updated user_in). }
  rewrite Hnoid in Hins.
  rewrite (stored_lookup_id _ _ inserted_id) in Hins by apply lookup_insert_eq.
  cbn in Hins.
  destruct (Mongo.has_id (VId inserted_id) c) eqn:Hid; [done|].
  injection Hins as <- <-.
  rewrite head_find_snoc, (has_id_false_find _ _ Hid) in Hrun.
  rewrite matches_singleton, bool_decide_eq_true_2 in Hrun
    by apply stored_lookup_id, lookup_insert_eq.
  injection Hrun as Hconv <-.
  exists (Mongo.stored (<["_id" := VId inserted_id]> user_data)).
  split; [done|]. unfold user_data, UserCreate.dump_exclude_password.
  split.
  { apply stored_lookup_str.
    by rewrite !lookup_insert_ne, lookup_insert_eq by done. }
  split.
  { apply stored_lookup_str.
    rewrite !lookup_insert_ne by done. by rewrite lookup_insert_eq. }
  split; [done|]. split.
  - destruct (head (Mongo.find {[ "email" := _ ]} c)) eqn:E; [|done].
    by apply convert_hit in E.
  - destruct (head (Mongo.find {[ "username" := _ ]} c)) eqn:E; [|done].
    by apply convert_hit in E.
Qed.

(** A user whose record answers the look-up by e-mail address or by
    username is not created a second time: the service returns no user
    and writes nothing. *)
Lemma create_user_taken inserted_id salt created updated user_in c d u :
  (head (Mongo.find {[ "email" := VStr (UserCreate.email user_in) ]} c)
   = Some d
   ∨ (head (Mongo.find {[ "email" := VStr (UserCreate.email user_in) ]} c)
      = None
      ∧ head (Mongo.find
                {[ "username" := VStr (UserCreate.username user_in) ]} c)
        = Some d)) →
  UserService._convert_to_response (Some d) = inr (Some u) →
  UserService.create_user inserted_id salt created updated user_in c
  = (inr None, c).
Proof.
  intros Hfound Hconv.
  unfold UserService.create_user, UserService.get_by_email,
    UserService.get_by_username.
  unfold mbind at 1, M_bind at 1. rewrite service_lookup_eval.
  destruct Hfound as [->|[-> Huser]]; [by rewrite Hconv|]. cbn.
  unfold mbind at 1, M_bind at 1. rewrite service_lookup_eval, Huser.
  by rewrite Hconv.
Qed.

(** C1. The register route answers every request with 500 "Internal
    server error" and stores nothing: the handler calls the instance
    method [create_user] on the class, so the call itself fails, for the
    first registration of a username as for the second.  Called on a
    service instance, [create_user] returns no user, and raises nothing,
    when the e-mail address or the username is taken; a value the
    route's response model does not admit. *)
Theorem register_answers_server_error
    (c : Collection) (inserted_id salt : string) (created updated : Z)
    (user_in : UserCreate.t) :
  auth.register inserted_id salt created updated user_in c
  = (Failure 500 "Internal server error", c)
  ∧ (∀ d u,
       (head (Mongo.find {[ "email" := VStr (UserCreate.email user_in) ]} c)
        = Some d
        ∨ (head (Mongo.find
                   {[ "email" := VStr (UserCreate.email user_in) ]} c) = None
           ∧ head (Mongo.find
                     {[ "username" := VStr (UserCreate.username user_in) ]} c)
             = Some d)) →
       UserService._convert_to_response (Some d) = inr (Some u) →
       UserService.create_user inserted_id salt created updated user_in c
       = (inr None, c))
  ∧ as_user None = inl ValidationError.
Proof.
  split; [done|]. split; [|done].
  intros d u. apply create_user_taken.
Qed.

End Register.

(** ** The token dependency *)

Section Dependency.
Context `{PwdContext} `{Settings} {emails : EmailValidator}.

(** The look-up [get_current_user] makes cannot bind its arguments. *)
Lemma get_by_username_unbound :
  py.bind_arguments ["self"; "username"] [] 0 ["username"] = inl TypeError.
Proof. by vm_compute. Qed.

(** What [get_current_user] does with a token: an exception of the
    decoder other than [JWTError] passes through; a token that does not
    decode or names no subject is answered with the credentials
    exception; for every other token the look-up raises [TypeError]. *)
Lemma get_current_user_eval (token : jwt.Token) (now : Z) (c : Collection) :
  get_current_user token now c
  = (match decode_token token now with
     | inl e => inl e
     | inr None => inl credentials_exception
     | inr (Some payload) =>
         match payload !! "sub" with
         | None | Some VNull => inl credentials_exception
         | Some _ => inl TypeError
         end
     end, c).
Proof.
  unfold get_current_user. run_m.
  destruct (decode_token token now) as [e|[payload|]]; [done| |done].
  destruct (payload !! "sub") as [[]|]; try done.
  all: by rewrite get_by_username_unbound.
Qed.

Lemma get_current_user_raises (token : jwt.Token) (now : Z) (c : Collection) :
  ∃ e, get_current_user token now c = (inl e, c).
Proof.
  rewrite get_current_user_eval.
  destruct (decode_token token now) as [e|[payload|]]; eauto.
  destruct (payload !! "sub") as [[]|]; eauto.
Qed.

Lemma get_current_active_user_raises (token : jwt.Token) (now : Z)
    (c : Collection) :
  ∃ e, get_current_active_user token now c = (inl e, c).
Proof.
  destruct (get_current_user_raises token now c) as [e He].
  exists e. unfold get_current_active_user. by rewrite (bind_raised _ _ _ _ _ He).
Qed.

Lemma get_current_active_user_subject (token : jwt.Token) (now : Z)
    (c : Collection) payload name :
  decode_token token now = inr (Some payload) →
  payload !! "sub" = Some (VStr name) →
  get_current_active_user token now c = (inl TypeError, c).
Proof.
  intros Hdec Hsub. unfold get_current_active_user.
  apply bind_raised. by rewrite get_current_user_eval, Hdec, Hsub.
Qed.

End Dependency.

(** ** The current user's profile *)

Section ReadUserMe.
Context `{PwdContext} `{Settings} {emails : EmailValidator}.

(** C2. [GET /users/me] is never answered with the user's record.  The
    request is taken by the route [/{user_id}], declared before [/me],
    with "me" as the identifier; its dependency fails for every token: a
    token that decodes and names a subject, a valid token of a registered
    user included, is answered 500 "Internal server error", since the
    look-up of the user is a method called on the class.  The handler
    the request would reach, [read_user_by_id], answers 404 for "me"
    whoever the user is; [read_user_me], which would return the record,
    is the handler of a route no request reaches. *)
Theorem get_users_me_never_succeeds (c : Collection) (token : jwt.Token)
    (now skip limit : Z) :
  users.resolve users.GET "me" = Some (users.read_user_by_id_route, Some "me")
  ∧ (∀ payload name,
       decode_token token now = inr (Some payload) →
       payload !! "sub" = Some (VStr name) →
       users.handle_get "me" skip limit token now c
       = (Failure 500 "Internal server error", c))
  ∧ (∃ status_code detail,
       users.handle_get "me" skip limit token now c
       = (Failure status_code detail, c))
  ∧ (∀ current_user,
       users.read_user_by_id "me" current_user c
       = (inl (HTTPException 404 "User not found" []), c))
  ∧ (∀ current_user,
       users.read_user_me current_user c = (inr (Some current_user), c)).
Proof.
  assert (∀ e, get_current_active_user token now c = (inl e, c) →
          users.handle_get "me" skip limit token now c
          = (exception_response e, c)) as Hdep.
  { intros e He. unfold users.handle_get.
    change (users.resolve users.GET "me")
      with (Some (users.read_user_by_id_route, Some "me")).
    cbv beta iota. unfold serve. by rewrite (bind_raised _ _ _ _ _ He). }
  split; [done|]. split; [|split; [|done]].
  - intros payload name Hdec Hsub.
    by rewrite (Hdep _ (get_current_active_user_subject _ _ c _ _ Hdec Hsub)).
  - destruct (get_current_active_user_raises token now c) as [e He].
    rewrite (Hdep _ He). destruct e; cbn; eauto.
Qed.

End ReadUserMe.

(** ** Listing users *)

Section GetUsers.
Context {emails : EmailValidator}.

(** The listing an administrator gets. *)
Lemma get_users_all_eval (c : Collection) (skip limit : Z) current_user :
  match current_user with
  | Some cu => UserResponse.is_superuser cu = true
  | None => True
  end →
  0 ≤ skip →
  let L := Z.max 1 (Z.min 100 limit) in
  UserService.get_users skip limit current_user c
  = (users ← traverse (λ user, UserService._convert_to_response (Some user))
               (take (Z.to_nat L) (drop (Z.to_nat skip) c));
     inr {| PaginatedResponse.items := users;
            PaginatedResponse.total := Z.of_nat (length c);
            PaginatedResponse.page := skip / L + 1;
            PaginatedResponse.page_size := Z.of_nat (length users);
            PaginatedResponse.total_pages :=
              (Z.of_nat (length c) + L - 1) / L |}, c).
Proof.
  intros Hsu Hskip L.
  assert (1 ≤ L ≤ 100) as HL by (unfold L; lia).
  assert (UserService.get_users skip limit current_user c
          = UserService.get_users skip limit None c) as ->.
  { destruct current_user as [cu|]; [|done].
    unfold UserService.get_users. by rewrite Hsu. }
  unfold UserService.get_users. fold L. run_m.
  rewrite find_all. unfold Mongo.skip, Mongo.limit.
  destruct (Z.ltb_spec skip 0); [lia|].
  destruct (Z.eqb_spec L 0); [lia|]. rewrite Z.abs_eq by lia.
  destruct (Z.ltb_spec 0 L); [|lia].
  destruct (traverse _ _) as [e|users] eqn:Htr; [done|]. cbn.
  do 3 f_equal.
  pose proof (traverse_length _ _ _ Htr) as Hlen.
  rewrite length_take in Hlen.
  destruct users as [|u users]; [done|]. cbn [length] in *. lia.
Qed.

(** C5. A requester whose record the collection holds under the
    requester's identifier: without the superuser flag the listing is
    exactly that one record, with total 1, whatever [skip] and [limit]
    are; with the flag it is the page of all users that [skip] and the
    limit (clamped to 1..100) select. *)
Theorem get_users_self_or_all (c : Collection) (skip limit : Z)
    (current_user : UserResponse.t) (d : Doc) :
  ObjectId.make (UserResponse.id current_user)
    = inr (UserResponse.id current_user) →
  head (Mongo.find {[ "_id" := VId (UserResponse.id current_user) ]} c)
    = Some d →
  UserService._convert_to_response (Some d) = inr (Some current_user) →
  (UserResponse.is_superuser current_user = false →
     UserService.get_users skip limit (Some current_user) c
     = (inr {| PaginatedResponse.items := [Some current_user];
               PaginatedResponse.total := 1;
               PaginatedResponse.page := 1;
               PaginatedResponse.page_size := 1;
               PaginatedResponse.total_pages := 1 |}, c))
  ∧ (UserResponse.is_superuser current_user = true → 0 ≤ skip →
     let L := Z.max 1 (Z.min 100 limit) in
     UserService.get_users skip limit (Some current_user) c
     = (users ← traverse
                  (λ user, UserService._convert_to_response (Some user))
                  (take (Z.to_nat L) (drop (Z.to_nat skip) c));
        inr {| PaginatedResponse.items := users;
               PaginatedResponse.total := Z.of_nat (length c);
               PaginatedResponse.page := skip / L + 1;
               PaginatedResponse.page_size := Z.of_nat (length users);
               PaginatedResponse.total_pages :=
                 (Z.of_nat (length c) + L - 1) / L |}, c)).
Proof.
  intros Hmake Hd Hconv. split.
  - intros Hsu. unfold UserService.get_users. rewrite Hsu. cbn.
    unfold UserService.get_user.
    assert (ObjectId.is_valid (UserResponse.id current_user) = true) as ->
      by by eapply make_is_valid.
    rewrite Hmake. run_m. cbn. by rewrite Hd, Hconv.
  - intros Hsu Hskip. by apply get_users_all_eval.
Qed.

End GetUsers.

Section GetUsersMetadata.
Context {emails : EmailValidator}.

Lemma get_users_clamped (c : Collection) skip limit current_user :
  UserService.get_users skip limit current_user c
  = UserService.get_users skip (Z.max 1 (Z.min 100 limit)) current_user c.
Proof.
  unfold UserService.get_users.
  by replace (Z.max 1 (Z.min 100 (Z.max 1 (Z.min 100 limit))))
    with (Z.max 1 (Z.min 100 limit)) by lia.
Qed.

(** C10, as amended. For every call of [get_users]: the limit in effect
    is the requested one clamped into 1..100, and the call is the same as
    with the clamped limit.  Without the superuser flag a result has
    page = 1, page_size = 1, total_pages = 1 whatever [skip] and [limit]
    are, and there is a result whenever the lookup of the requester
    returns.  In the listing of all users a result has page_size equal
    to the minimum of the clamped limit and the number of items
    returned, which is the number of items returned (0 when none), and
    is the minimum of the requested limit and that number whenever the
    requested limit is at least 1; there is a result whenever [skip] is
    not negative and the documents of the page convert. *)
Theorem get_users_metadata (c : Collection) (skip limit : Z)
    (current_user : option UserResponse.t) :
  let L := Z.max 1 (Z.min 100 limit) in
  let self_only :=
    match current_user with
    | Some cu => negb (UserResponse.is_superuser cu)
    | None => false
    end in
  1 ≤ L ≤ 100
  ∧ UserService.get_users skip limit current_user c
    = UserService.get_users skip L current_user c
  ∧ (self_only = true →
     (∀ r c', UserService.get_users skip limit current_user c = (inr r, c') →
        PaginatedResponse.page r = 1
        ∧ PaginatedResponse.page_size r = 1
        ∧ PaginatedResponse.total_pages r = 1)
     ∧ (∀ cu user, current_user = Some cu →
          UserService.get_user (UserResponse.id cu) c = (inr user, c) →
          ∃ r, UserService.get_users skip limit current_user c = (inr r, c)))
  ∧ (self_only = false →
     (∀ r c', UserService.get_users skip limit current_user c = (inr r, c') →
        let n := Z.of_nat (length (PaginatedResponse.items r)) in
        PaginatedResponse.page_size r = Z.min L n
        ∧ PaginatedResponse.page_size r = n
        ∧ (1 ≤ limit → PaginatedResponse.page_size r = Z.min limit n))
     ∧ (∀ users, 0 ≤ skip →
          traverse (λ user, UserService._convert_to_response (Some user))
            (take (Z.to_nat L) (drop (Z.to_nat skip) c)) = inr users →
          ∃ r, UserService.get_users skip limit current_user c = (inr r, c)
               ∧ PaginatedResponse.items r = users)).
Proof.
  intros L self_only. subst self_only.
  assert (1 ≤ L ≤ 100) as HL by (unfold L; lia).
  split; [done|]. split; [apply get_users_clamped|]. split.
  - intros Hself. destruct current_user as [cu|]; [|done].
    cbn in Hself. split.
    + intros r c'. unfold UserService.get_users. rewrite Hself.
      unfold mbind, M_bind.
      destruct (UserService.get_user _ c) as [[e|user] c0]; [done|].
      by intros [= <- _].
    + intros cu' user [= <-] Huser. unfold UserService.get_users.
      rewrite Hself. unfold mbind, M_bind. rewrite Huser. by eexists.
  - intros Hself.
    assert (UserService.get_users skip limit current_user c
            = UserService.get_users skip limit None c) as ->.
    { destruct current_user as [cu|]; [|done]. cbn in Hself.
      unfold UserService.get_users. by rewrite Hself. }
    split.
    + intros r c'. unfold UserService.get_users. fold L. run_m.
      rewrite find_all. unfold Mongo.skip, Mongo.limit.
      destruct (skip <? 0); [done|].
      destruct (Z.eqb_spec L 0); [lia|]. rewrite Z.abs_eq by lia.
      destruct (traverse _ _) as [e|users] eqn:Htr; [done|].
      intros [= <- _]. cbn.
      pose proof (traverse_length _ _ _ Htr) as Hlen.
      rewrite length_take in Hlen.
      destruct users as [|u users]; cbn [length] in *; lia.
    + intros users Hskip Htr.
      rewrite (get_users_all_eval c skip limit None I Hskip).
      fold L. rewrite Htr. cbn. by eexists.
Qed.

End GetUsersMetadata.

(** C10, the claim as stated fails: with a requested limit of 0 the
    listing of a one-user collection for an administrator reports
    page_size 1, not the minimum of the requested limit and the number of
    items returned, which is 0. *)
Lemma get_users_page_size_not_min_of_requested_limit :
  let admin := {| UserResponse.id := "507f1f77bcf86cd799439011";
                  UserResponse.email := "root@example.com";
                  UserResponse.username := "root";
                  UserResponse.full_name := None;
                  UserResponse.role := ADMIN;
                  UserResponse.disabled := false;
                  UserResponse.is_superuser := true;
                  UserResponse.created_at := None;
                  UserResponse.updated_at := None |} in
  let c : Collection :=
    [ {[ "_id" := VId "507f1f77bcf86cd799439011";
         "email" := VStr "root@example.com";
         "username" := VStr "root";
         "role" := VStr "admin";
         "is_superuser" := VBool true;
         "hashed_password" := VStr "$2b$12$abcdefghijklmnopqrstuv" ]} ] in
  ∃ r, UserService.get_users (emails := demo_email_validator) 0 0
         (Some admin) c = (inr r, c)
       ∧ PaginatedResponse.items r = [Some admin]
       ∧ PaginatedResponse.page_size r = 1
       ∧ PaginatedResponse.page_size r
         ≠ Z.min 0 (Z.of_nat (length (PaginatedResponse.items r))).
Proof. eexists. split; [vm_compute; reflexivity|]. by vm_compute. Qed.

(** ** The theorems at concrete inputs *)

Lemma get_multi_paginates_witness :
  let p := {| PaginationParams.page := 2; PaginationParams.page_size := 1 |} in
  PaginationParams.valid p
  ∧ ∃ r, (CRUDPaginatedMongo.get_multi inr (λ _ l, l) p None None
            demo_collection).1 = inr r
         ∧ PaginatedResponse.items r = [].
Proof.
  assert (PaginationParams.valid
            {| PaginationParams.page := 2; PaginationParams.page_size := 1 |})
    as Hp by (unfold PaginationParams.valid; cbn; lia).
  split; [exact Hp|].
  destruct (get_multi_paginates inr (λ _ l, l) (λ _ l, Permutation_refl l)
              _ None None demo_collection Hp) as (_ & _ & _ & Hempty).
  apply Hempty. vm_compute. discriminate.
Defined.

Lemma repository_get_raises_on_every_id_witness :
  ObjectId.is_valid "me" = false
  ∧ UserRepository.get (emails := demo_email_validator) "me" demo_collection
    = (inl TypeError, demo_collection)
  ∧ UserService.get_user (emails := demo_email_validator) "me" demo_collection
    = (inr None, demo_collection).
Proof.
  destruct (repository_get_raises_on_every_id
              (inr : Doc → Exn + Doc) (emails := demo_email_validator)
              "me" demo_collection) as (Hrepo & Hmalformed & _).
  split; [reflexivity|]. split; [exact Hrepo|].
  apply Hmalformed. reflexivity.
Defined.

Lemma authenticate_never_unauthorized_witness :
  auth.login (H := demo_pwd_context) (H0 := demo_settings)
    (emails := demo_email_validator) "bob" "hunter2hunter2" 1700000100000000
    demo_collection
  = auth.login (H := demo_pwd_context) (H0 := demo_settings)
      (emails := demo_email_validator) "alice" "not-her-password"
      1700000100000000 demo_collection
  ∧ auth.login (H := demo_pwd_context) (H0 := demo_settings)
      (emails := demo_email_validator) "alice" "longenough123"
      1700000100000000 demo_collection
    = (Failure 500 "Internal server error", demo_collection).
Proof.
  destruct (authenticate_never_unauthorized (H := demo_pwd_context)
              (H0 := demo_settings) (emails := demo_email_validator)
              demo_collection "bob" "hunter2hunter2" 1700000100000000)
    as (_ & _ & Hunknown).
  destruct (authenticate_never_unauthorized (H := demo_pwd_context)
              (H0 := demo_settings) (emails := demo_email_validator)
              demo_collection "alice" "not-her-password" 1700000100000000)
    as (_ & _ & Hwrong).
  destruct (authenticate_never_unauthorized (H := demo_pwd_context)
              (H0 := demo_settings) (emails := demo_email_validator)
              demo_collection "alice" "longenough123" 1700000100000000)
    as (_ & _ & Hright).
  split; [rewrite Hunknown, Hwrong; reflexivity|exact Hright].
Defined.

Lemma inherited_update_stores_plaintext_witness :
  ∃ d, d ∈ (CRUDPaginatedMongo.update
              (UserResponse.make (emails := demo_email_validator)) demo_id
              (UserUpdate.dict
                 {| UserUpdate.email := Unset; UserUpdate.username := Unset;
                    UserUpdate.full_name := Unset;
                    UserUpdate.password := Given "plaintext99";
                    UserUpdate.role := Unset |}) true demo_collection).2
       ∧ d !! "password" = Some (VStr "plaintext99")
       ∧ d !! "username" = Some (VStr "alice").
Proof.
  destruct (inherited_update_stores_plaintext (H := demo_pwd_context)
              (emails := demo_email_validator)
              demo_id demo_id "plaintext99"
              (default ∅ (head demo_collection)) true demo_collection)
    as (_ & _ & Hin & _).
  - vm_compute. reflexivity.
  - vm_compute. reflexivity.
  - eexists. split; [exact Hin|]. split; vm_compute; reflexivity.
Defined.

Lemma token_accepted_through_expiry_second_witness :
  minutes 30 ≠ 0
  ∧ decode_token (H0 := demo_settings)
      (create_access_token (H0 := demo_settings) {[ "sub" := VStr "alice" ]}
         (Some (minutes 30)) 1700000000000000)
      (1700000000000000 + minutes 30 + 1000000) = inr None.
Proof.
  assert (minutes 30 ≠ 0) as Hne by (vm_compute; discriminate).
  split; [exact Hne|].
  destruct (token_accepted_through_expiry_second (H := demo_settings)
              "alice" (minutes 30) 1700000000000000
              (1700000000000000 + minutes 30 + 1000000) Hne)
    as (_ & _ & _ & Hlate).
  apply Hlate. lia.
Defined.

Lemma register_answers_server_error_witness :
  let first := {| UserCreate.email := "test1@example.com";
                  UserCreate.username := "duplicate";
                  UserCreate.full_name := Some "Test User";
                  UserCreate.role := USER;
                  UserCreate.password := "testpassword" |} in
  let second := {| UserCreate.email := "test2@example.com";
                   UserCreate.username := "duplicate";
                   UserCreate.full_name := Some "Test User";
                   UserCreate.role := USER;
                   UserCreate.password := "testpassword" |} in
  let stored := (UserService.create_user (H := demo_pwd_context)
                   (emails := demo_email_validator)
                   "507f1f77bcf86cd799439011" "c2FsdA" 1700000000000000
                   1700000000000001 first []).2 in
  auth.register (H := demo_pwd_context) (emails := demo_email_validator)
    "507f1f77bcf86cd799439011" "c2FsdA" 1700000000000000 1700000000000001
    first []
  = (Failure 500 "Internal server error", [])
  ∧ length stored = 1%nat
  ∧ UserService.create_user (H := demo_pwd_context)
      (emails := demo_email_validator) "507f1f77bcf86cd799439012" "c2FsdB"
      1700000001000000 1700000001000001 second stored
    = (inr None, stored).
Proof.
  intros first second stored.
  destruct (register_answers_server_error (H := demo_pwd_context)
              (emails := demo_email_validator) [] "507f1f77bcf86cd799439011"
              "c2FsdA" 1700000000000000 1700000000000001 first)
    as (Hroute & _).
  destruct (register_answers_server_error (H := demo_pwd_context)
              (emails := demo_email_validator) stored
              "507f1f77bcf86cd799439012" "c2FsdB" 1700000001000000
              1700000001000001 second)
    as (_ & Htaken & _).
  split; [exact Hroute|]. split; [reflexivity|].
  eapply (Htaken (default ∅ (head stored))).
  - right. split; vm_compute; reflexivity.
  - vm_compute. reflexivity.
Defined.

Lemma get_users_me_never_succeeds_witness :
  (∃ payload, decode_token (H0 := demo_settings) demo_token 1700000200000000
              = inr (Some payload)
              ∧ payload !! "sub" = Some (VStr "alice"))
  ∧ users.handle_get (H0 := demo_settings) (emails := demo_email_validator)
      "me" 0 10 demo_token 1700000200000000 demo_collection
    = (Failure 500 "Internal server error", demo_collection).
Proof.
  assert (∃ payload, decode_token (H0 := demo_settings) demo_token
                       1700000200000000 = inr (Some payload)
                     ∧ payload !! "sub" = Some (VStr "alice")) as Hdec
    by (eexists; split; vm_compute; reflexivity).
  split; [exact Hdec|]. destruct Hdec as (payload & Hdec & Hsub).
  destruct (get_users_me_never_succeeds (H0 := demo_settings)
              (emails := demo_email_validator) demo_collection demo_token
              1700000200000000 0 10) as (_ & Hvalid & _).
  exact (Hvalid payload "alice" Hdec Hsub).
Defined.

Lemma get_users_self_or_all_witness :
  ∃ alice, UserService.get_user (emails := demo_email_validator) demo_id
             demo_collection
           = (inr (Some alice), demo_collection)
    ∧ UserResponse.is_superuser alice = false
    ∧ UserService.get_users (emails := demo_email_validator) 40 7
        (Some alice) demo_collection
      = (inr {| PaginatedResponse.items := [Some alice];
                PaginatedResponse.total := 1;
                PaginatedResponse.page := 1;
                PaginatedResponse.page_size := 1;
                PaginatedResponse.total_pages := 1 |}, demo_collection).
Proof.
  eexists. split; [vm_compute; reflexivity|]. split; [reflexivity|].
  eapply (get_users_self_or_all (emails := demo_email_validator)
            demo_collection 40 7).
  - vm_compute. reflexivity.
  - vm_compute. reflexivity.
  - vm_compute. reflexivity.
  - reflexivity.
Defined.

Lemma repository_update_never_returns_witness :
  let partial := {| UserUpdate.email := Unset; UserUpdate.username := Unset;
                    UserUpdate.full_name := Null; UserUpdate.password := Unset;
                    UserUpdate.role := Unset |} in
  UserRepository.update (H := demo_pwd_context)
    (emails := demo_email_validator) "c2FsdA" demo_id partial demo_collection
  = (inl TypeError, demo_collection)
  ∧ (CRUDPaginatedMongo.update (inr : Doc → Exn + Doc) demo_id
       (UserUpdate.dict partial) true demo_collection).1
    = inr (head demo_collection).
Proof.
  intros partial.
  destruct (repository_update_never_returns (inr : Doc → Exn + Doc)
              (H := demo_pwd_context) (emails := demo_email_validator) "c2FsdA" demo_id partial
              demo_collection) as (Hrepo & _ & Hempty & _).
  split; [exact Hrepo|].
  assert (∀ k v, UserUpdate.dict partial !! k = Some v → v = VNull) as Hnull.
  { intros k v. unfold UserUpdate.dict, partial. cbn. intros Hk.
    repeat (apply lookup_insert_Some in Hk as [[_ <-]|[_ Hk]]; [done|]).
    by apply lookup_singleton_Some in Hk as [_ <-]. }
  destruct (Hempty Hnull true) as [Hsame _].
  rewrite Hsame. vm_compute. reflexivity.
Defined.

Lemma get_users_metadata_witness :
  ∃ r, UserService.get_users (emails := demo_email_validator) 0 250 None
         demo_collection
       = (inr r, demo_collection)
       ∧ PaginatedResponse.page_size r = 1.
Proof.
  destruct (get_users_metadata (emails := demo_email_validator)
              demo_collection 0 250 None)
    as (_ & _ & _ & Hall).
  destruct (Hall eq_refl) as [Hsize Hreturns].
  destruct (Hreturns _ ltac:(lia) eq_refl) as (r & Hr & Hitems).
  exists r. split; [exact Hr|].
  destruct (Hsize r _ Hr) as (_ & Hn & _). rewrite Hn, Hitems. reflexivity.
Defined.

(** * Further properties of the code *)

(** ** Pages of a listing *)

Lemma traverse_take {A B} (f : A → Exn + B) n xs ys :
  traverse f xs = inr ys → traverse f (take n xs) = inr (take n ys).
Proof.
  revert n ys. induction xs as [|x xs IH]; intros n ys; simpl.
  - intros [= <-]. by destruct n.
  - destruct (f x) as [|y] eqn:Hy; [done|].
    destruct (traverse f xs) as [|ys'] eqn:Hys; [done|].
    intros [= <-]. destruct n as [|n]; [done|]. simpl.
    by rewrite Hy, (IH n ys').
Qed.

Lemma traverse_drop {A B} (f : A → Exn + B) n xs ys :
  traverse f xs = inr ys → traverse f (drop n xs) = inr (drop n ys).
Proof.
  revert n ys. induction xs as [|x xs IH]; intros n ys; simpl.
  - intros [= <-]. by destruct n.
  - destruct (f x) as [|y] eqn:Hy; [done|].
    destruct (traverse f xs) as [|ys'] eqn:Hys; [done|].
    intros [= <-]. destruct n as [|n]; simpl.
    + by rewrite Hy, Hys.
    + by apply IH.
Qed.

(** Cutting a list into [n] consecutive pieces of [size] elements loses
    nothing when [n * size] reaches its length. *)
Lemma concat_chunks {A} (l : list A) (size n : nat) :
  (length l ≤ n * size)%nat →
  concat ((λ k, take size (drop (k * size) l)) <$> seq 0 n) = l.
Proof.
  revert l. induction n as [|n IH]; intros l Hlen.
  - destruct l; [done|]. simpl in Hlen. lia.
  - simpl. rewrite <- fmap_S_seq, <- list_fmap_compose.
    assert (concat ((λ k, take size (drop (k * size) l)) ∘ S <$> seq 0 n)
            = drop size l) as ->.
    { etransitivity;
        [|apply (IH (drop size l)); rewrite length_drop; lia].
      f_equal. apply list_fmap_ext. intros _ k _. simpl.
      by rewrite drop_drop, (Nat.add_comm size). }
    apply take_drop.
Qed.

Section Pages.
Context {ModelType : Type}.
Variable model : Doc → Exn + ModelType.
Variable sort_by : list (string * Z) → list Doc → list Doc.
Hypothesis sort_by_perm : ∀ s l, sort_by s l ≡ₚ l.

Import CRUDPaginatedMongo.

(** X1. When every matching document converts, the pages 1, 2, ...,
    total_pages of a listing all return, and their items, put one after
    the other, are the converted matching documents in cursor order:
    nothing is lost or repeated between pages. *)
Theorem get_multi_pages_cover (page_size : Z) (query : option Doc)
    (sort : option (list (string * Z))) (c : Collection)
    (all_items : list ModelType) :
  1 ≤ page_size ≤ 100 →
  traverse model (ordered sort_by (default ∅ query) sort c) = inr all_items →
  let total := Z.of_nat (length (Mongo.find (default ∅ query) c)) in
  let total_pages := Z.to_nat ((total + page_size - 1) / page_size) in
  ∃ pages : list (PaginatedResponse.t ModelType),
    Forall2 (λ k r,
      get_multi model sort_by
        {| PaginationParams.page := Z.of_nat (S k);
           PaginationParams.page_size := page_size |} query sort c
      = (inr r, c)) (seq 0 total_pages) pages
    ∧ concat (PaginatedResponse.items <$> pages) = all_items.
Proof.
  intros Hps Hall total total_pages.
  set (size := Z.to_nat page_size).
  set (mk := λ k : nat,
    {| PaginatedResponse.items := take size (drop (k * size) all_items);
       PaginatedResponse.total := total;
       PaginatedResponse.page := Z.of_nat (S k);
       PaginatedResponse.page_size := page_size;
       PaginatedResponse.total_pages := (total + page_size - 1) / page_size |}).
  exists (mk <$> seq 0 total_pages). split.
  - apply Forall2_fmap_r, Forall_Forall2_diag, Forall_forall.
    intros k _.
    rewrite (get_multi_eval model sort_by) by (split; simpl; lia).
    unfold window. cbn [PaginationParams.page PaginationParams.page_size].
    replace (Z.to_nat ((Z.of_nat (S k) - 1) * page_size))
      with (k * size)%nat by (unfold size; nia).
    fold size.
    by rewrite (traverse_take _ _ _ _ (traverse_drop _ _ _ _ Hall)).
  - rewrite <- list_fmap_compose.
    apply (concat_chunks all_items size total_pages).
    rewrite (traverse_length _ _ _ Hall), (ordered_length sort_by sort_by_perm).
    unfold total_pages, size.
    pose proof (Z.mod_pos_bound (total + page_size - 1) page_size) as Hm.
    pose proof (Z.div_mod (total + page_size - 1) page_size) as Hd.
    assert (0 ≤ (total + page_size - 1) / page_size)
      by (apply Z.div_pos; lia).
    fold total. nia.
Qed.

End Pages.

(** ** Creating, reading and deleting through the generic helper *)

Lemma has_id_true_find key (c : Collection) :
  Mongo.has_id key c = true →
  is_Some (head (Mongo.find {[ "_id" := key ]} c)).
Proof.
  unfold Mongo.has_id, Mongo.find. induction c as [|d c IH]; [done|]. cbn.
  rewrite matches_singleton. destruct (bool_decide _); cbn; [eauto|apply IH].
Qed.

Lemma remove_first_miss query (c : Collection) :
  head (Mongo.find query c) = None → Mongo.remove_first query c = c.
Proof.
  unfold Mongo.find. induction c as [|x c IH]; [done|]. cbn.
  destruct (Mongo.matches query x); cbn; [done|].
  intros Hn. f_equal. by apply IH.
Qed.

Lemma remove_first_hit query (c : Collection) d :
  head (Mongo.find query c) = Some d →
  length c = S (length (Mongo.remove_first query c))
  ∧ sublist (Mongo.remove_first query c) c.
Proof.
  unfold Mongo.find. induction c as [|x c IH]; [done|]. cbn.
  destruct (Mongo.matches query x); cbn.
  - intros _. split; [done|]. by apply sublist_cons.
  - intros Hd. destruct (IH Hd) as [Hlen Hsub]. split; [by rewrite Hlen|].
    by apply sublist_skip.
Qed.

Section CrudRoundTrip.
Context {ModelType : Type}.
Variable model : Doc → Exn + ModelType.

(** X2. Creating a record that brings no identifier of its own, under a
    generated identifier no stored record carries: the record is appended
    with that identifier, as the driver stores it (a datetime to the
    millisecond), and returned; reading it back by the identifier gives
    the same record, and reading by any other identifier gives what it
    gave before. *)
Theorem crud_create_then_get (oid : string) (obj_in : Doc) (c : Collection) :
  obj_in !! "_id" = None →
  ObjectId.make oid = inr oid →
  Mongo.has_id (VId oid) c = false →
  let d := Mongo.stored (<["_id" := VId oid]> obj_in) in
  CRUDPaginatedMongo.create model oid obj_in c = (model d, c ++ [d])
  ∧ CRUDPaginatedMongo.get model oid (c ++ [d]) = (Some <$> model d, c ++ [d])
  ∧ (∀ other other_oid, ObjectId.make other = inr other_oid →
       other_oid ≠ oid →
       (CRUDPaginatedMongo.get model other (c ++ [d])).1
       = (CRUDPaginatedMongo.get model other c).1).
Proof.
  intros Hnoid Hmake Hfresh d.
  assert (head (Mongo.find {[ "_id" := VId oid ]} (c ++ [d])) = Some d) as Hd.
  { rewrite head_find_snoc, (has_id_false_find _ _ Hfresh).
    rewrite matches_singleton. unfold d.
    by rewrite bool_decide_eq_true_2
      by apply stored_lookup_id, lookup_insert_eq. }
  pose proof (make_is_valid _ _ Hmake) as Hv.
  split; [|split].
  - unfold CRUDPaginatedMongo.create, Mongo.insert_one. run_m.
    rewrite Hnoid. fold d.
    assert (d !! "_id" = Some (VId oid)) as ->
      by apply stored_lookup_id, lookup_insert_eq.
    cbn. rewrite Hfresh, Hd. by destruct (model d).
  - unfold CRUDPaginatedMongo.get. rewrite Hv, Hmake. cbn. run_m.
    rewrite Hd. by destruct (model d).
  - intros other other_oid Hother Hne.
    pose proof (make_is_valid _ _ Hother) as Hvo.
    unfold CRUDPaginatedMongo.get. rewrite Hvo, Hother. cbn. run_m.
    rewrite head_find_snoc, matches_singleton.
    destruct (head (Mongo.find _ c)) as [x|]; cbn;
      [by destruct (model x)|].
    rewrite bool_decide_eq_false_2; [done|].
    unfold d. rewrite (stored_lookup_id _ _ oid) by apply lookup_insert_eq.
    intros [= ?]. by apply Hne.
Qed.

End CrudRoundTrip.

(** X3. [delete] always returns: [True] exactly when the identifier is
    well-formed and some stored record carries it, and then the collection
    has lost one record and nothing else; [False] otherwise, with the
    collection as it was. *)
Theorem crud_delete_removes_one (id : string) (c : Collection) :
  ∃ (b : bool) (c' : Collection),
    CRUDPaginatedMongo.delete id c = (inr b, c')
    ∧ (b = true ↔ ∃ oid, ObjectId.make id = inr oid
                         ∧ Mongo.has_id (VId oid) c = true)
    ∧ (if b then length c = S (length c') ∧ sublist c' c else c' = c).
Proof.
  unfold CRUDPaginatedMongo.delete.
  destruct (ObjectId.make id) as [e|oid] eqn:Hmake.
  - assert (ObjectId.is_valid id = false) as ->
      by (unfold ObjectId.is_valid; by rewrite Hmake).
    exists false, c. split; [done|]. split; [|done].
    split; [done|]. by intros (oid & ? & _).
  - rewrite (make_is_valid _ _ Hmake). cbn.
    unfold Mongo.delete_one. run_m. cbn.
    destruct (Mongo.has_id (VId oid) c) eqn:Hid.
    + destruct (has_id_true_find _ _ Hid) as [d Hd]. rewrite Hd. cbn.
      eexists true, _. split; [done|]. split; [|by eapply remove_first_hit].
      split; [|done]. intros _. eauto.
    + rewrite (has_id_false_find _ _ Hid). cbn.
      eexists false, _. split; [done|].
      split; [|by apply remove_first_miss, has_id_false_find].
      split; [done|]. intros (oid' & [= <-] & Hh). congruence.
Qed.


(** ** Registration and the token dependencies *)

(** What a response object says about the document it was built from. *)
Lemma make_fields {emails : EmailValidator} (user : Doc)
    (u : UserResponse.t) :
  UserResponse.make user = inr u →
  user !! "id" = Some (VStr (UserResponse.id u))
  ∧ (∃ address, user !! "email" = Some (VStr address)
                ∧ validate_email address = Some (UserResponse.email u))
  ∧ user !! "username" = Some (VStr (UserResponse.username u))
  ∧ UserResponse.parse_flag (user !! "disabled")
    = inr (UserResponse.disabled u)
  ∧ UserResponse.parse_flag (user !! "is_superuser")
    = inr (UserResponse.is_superuser u).
Proof.
  unfold UserResponse.make.
  destruct (user !! "id") as [[]|]; try done.
  destruct (user !! "email") as [[| address | | | |]|]; try done.
  destruct (user !! "username") as [[]|]; try done.
  destruct (negb _); [done|].
  destruct (validate_email address) as [address'|] eqn:Haddress; [|done].
  cbn.
  destruct (match user !! "full_name" with
            | Some (VStr f) => _ | None | Some VNull => _ | Some _ => _ end)
    as [|fn]; [done|]. cbn.
  destruct (UserResponse.parse_role _) as [|r]; [done|]. cbn.
  destruct (UserResponse.parse_flag (user !! "disabled")) as [|d]; [done|].
  cbn.
  destruct (UserResponse.parse_flag (user !! "is_superuser")) as [|su];
    [done|]. cbn.
  destruct (UserResponse.parse_time _ false) as [|ca]; [done|]. cbn.
  destruct (UserResponse.parse_time _ true) as [|ua]; [done|]. cbn.
  intros [= <-]. cbn. eauto 10.
Qed.

Lemma convert_fields {emails : EmailValidator} (d : Doc)
    (u : UserResponse.t) :
  UserService._convert_to_response (Some d) = inr (Some u) →
  (∃ address, d !! "email" = Some (VStr address)
              ∧ validate_email address = Some (UserResponse.email u))
  ∧ d !! "username" = Some (VStr (UserResponse.username u))
  ∧ (∃ i, d !! "_id" = Some i ∧ UserResponse.id u = py_str i)
  ∧ UserResponse.parse_flag (d !! "disabled") = inr (UserResponse.disabled u)
  ∧ UserResponse.parse_flag (d !! "is_superuser")
    = inr (UserResponse.is_superuser u).
Proof.
  unfold UserService._convert_to_response.
  destruct (decide (d = ∅)); [done|].
  destruct (d !! "_id") as [i|] eqn:Hi; [|done].
  destruct (UserResponse.make _) as [|r] eqn:Hmake; [done|].
  cbn. intros [= <-].
  apply make_fields in Hmake as (Hid & He & Hu & Hd & Hs).
  rewrite lookup_insert_eq in Hid. injection Hid as Hid.
  rewrite !lookup_insert_ne in He, Hu, Hd, Hs by done.
  repeat split; try done. eauto.
Qed.

Lemma field_values_snoc k (c : Collection) (d : Doc) v :
  d !! k = Some v → field_values k (c ++ [d]) = field_values k c ++ [v].
Proof. intros Hd. unfold field_values. rewrite omap_app. cbn. by rewrite Hd. Qed.

Lemma find_none_not_stored k v (c : Collection) :
  head (Mongo.find {[ k := v ]} c) = None → v ∉ field_values k c.
Proof.
  unfold Mongo.find, field_values. induction c as [|d c IH]; cbn.
  - intros _. apply not_elem_of_nil.
  - rewrite matches_singleton.
    destruct (bool_decide (d !! k = Some v)) eqn:E; cbn; [done|].
    intros Hn. apply bool_decide_eq_false in E.
    destruct (d !! k) as [w|]; [|by apply IH].
    apply not_elem_of_cons. split; [congruence|by apply IH].
Qed.

Section CreateUserProperties.
Context `{PwdContext} {emails : EmailValidator}.

(** The collection after [create_user], however it ends. *)
Lemma create_user_store inserted_id salt created updated user_in c :
  let c' := (UserService.create_user inserted_id salt created updated
               user_in c).2 in
  c' = c
  ∨ ∃ d, c' = c ++ [d]
      ∧ d !! "_id" = Some (VId inserted_id)
      ∧ d !! "email" = Some (VStr (UserCreate.email user_in))
      ∧ d !! "username" = Some (VStr (UserCreate.username user_in))
      ∧ Mongo.has_id (VId inserted_id) c = false
      ∧ head (Mongo.find {[ "email" := VStr (UserCreate.email user_in) ]} c)
        = None
      ∧ head (Mongo.find
                {[ "username" := VStr (UserCreate.username user_in) ]} c)
        = None.
Proof.
  cbn zeta.
  destruct (UserService.create_user _ _ _ _ _ c) as [r c'] eqn:Hrun.
  cbn [snd]. revert Hrun.
  unfold UserService.create_user, UserService.get_by_email,
    UserService.get_by_username.
  unfold mbind at 1, M_bind at 1. rewrite service_lookup_eval.
  destruct (UserService._convert_to_response (head (Mongo.find _ c)))
    as [e|[u|]] eqn:Hemail; [by intros [= _ <-]; left..|].
  cbv beta iota. unfold mbind at 1, M_bind at 1. rewrite service_lookup_eval.
  destruct (UserService._convert_to_response
              (head (Mongo.find {[ "username" := _ ]} c)))
    as [e|[u|]] eqn:Huser; [by intros [= _ <-]; left..|].
  cbv beta iota. unfold mbind at 1, M_bind at 1.
  set (user_data := <["updated_at" := _]> _).
  assert (user_data !! "_id" = None) as Hnoid
    by apply (create_user_doc_hash_only salt created updated user_in).
  unfold Mongo.insert_one. run_m. rewrite Hnoid.
  rewrite (stored_lookup_id _ _ inserted_id) by apply lookup_insert_eq. cbn.
  destruct (Mongo.has_id (VId inserted_id) c) eqn:Hid;
    [by intros [= _ <-]; left|].
  intros [= _ <-].
  right. exists (Mongo.stored (<["_id" := VId inserted_id]> user_data)).
  split; [done|].
  split; [apply stored_lookup_id, lookup_insert_eq|].
  split; [by vm_compute|]. split; [by vm_compute|]. split; [done|].
  split.
  - destruct (head (Mongo.find {[ "email" := _ ]} c)) eqn:E; [|done].
    by apply convert_hit in E.
  - destruct (head (Mongo.find {[ "username" := _ ]} c)) eqn:E; [|done].
    by apply convert_hit in E.
Qed.

(** X4. [create_user] keeps identifiers, e-mail addresses and usernames
    unique: in a collection where no two records share the value of one of
    these fields, none do after the call, whether it creates a user,
    refuses the request or raises. *)
Theorem create_user_keeps_unique
    (inserted_id salt : string) (created updated : Z)
    (user_in : UserCreate.t) (c : Collection) :
  NoDup (field_values "_id" c) →
  NoDup (field_values "email" c) →
  NoDup (field_values "username" c) →
  let c' := (UserService.create_user inserted_id salt created updated
               user_in c).2 in
  NoDup (field_values "_id" c')
  ∧ NoDup (field_values "email" c')
  ∧ NoDup (field_values "username" c').
Proof.
  intros Hids Hemails Husers c'.
  destruct (create_user_store inserted_id salt created updated user_in c)
    as [E|(d & E & Hid & Hemail & Huser & Hfresh & Hnoemail & Hnouser)];
    fold c' in E; rewrite E; [done|].
  rewrite (field_values_snoc _ _ _ _ Hid), (field_values_snoc _ _ _ _ Hemail),
    (field_values_snoc _ _ _ _ Huser).
  assert (∀ l (v : Value), NoDup l → v ∉ l → NoDup (l ++ [v])) as Hsnoc.
  { intros l v Hl Hv. apply NoDup_app. split; [done|].
    split; [|apply NoDup_singleton].
    intros x Hx ->%list_elem_of_singleton. done. }
  split; [|split]; apply Hsnoc; try done.
  - by apply find_none_not_stored, has_id_false_find.
  - by apply find_none_not_stored.
  - by apply find_none_not_stored.
Qed.

(** X5. A request whose e-mail address and username no record holds,
    with a fresh generated identifier, is stored as one new record: the
    identifier, the fields of the request, the hash of the password and
    the two clock readings cut to the millisecond, as the database keeps
    them; no [password] field.  The answer is the response object built
    from that record as it is read back; when it can be built, it carries
    the identifier and the username of the request, the e-mail address as
    the validator normalises it, and is neither disabled nor a
    superuser. *)
Theorem create_user_stores_request
    (inserted_id salt : string) (created updated : Z)
    (user_in : UserCreate.t) (c : Collection) :
  head (Mongo.find {[ "email" := VStr (UserCreate.email user_in) ]} c) = None →
  head (Mongo.find {[ "username" := VStr (UserCreate.username user_in) ]} c)
    = None →
  Mongo.has_id (VId inserted_id) c = false →
  let d : Doc :=
    {[ "_id" := VId inserted_id;
       "email" := VStr (UserCreate.email user_in);
       "username" := VStr (UserCreate.username user_in);
       "full_name" := opt_str (UserCreate.full_name user_in);
       "role" := VStr (role_value (UserCreate.role user_in));
       "hashed_password" :=
         VStr (get_password_hash salt (UserCreate.password user_in));
       "created_at" := VTime (created / 1000 * 1000);
       "updated_at" := VTime (updated / 1000 * 1000) ]} in
  UserService.create_user inserted_id salt created updated user_in c
  = (UserService._convert_to_response (Some d), c ++ [d])
  ∧ d !! "password" = None
  ∧ ∀ u, UserService._convert_to_response (Some d) = inr (Some u) →
      UserResponse.id u = inserted_id
      ∧ UserResponse.username u = UserCreate.username user_in
      ∧ validate_email (UserCreate.email user_in)
        = Some (UserResponse.email u)
      ∧ UserResponse.disabled u = false
      ∧ UserResponse.is_superuser u = false.
Proof.
  intros Hnoemail Hnouser Hfresh d.
  assert (Mongo.stored
            (<["_id" := VId inserted_id]>
               (<["updated_at" := VTime updated]>
                  (<["created_at" := VTime created]>
                     (<["hashed_password" :=
                          VStr (get_password_hash salt
                                  (UserCreate.password user_in))]>
                        (UserCreate.dump_exclude_password user_in))))) = d)
    as Hstored.
  { apply map_eq. intros k. unfold d.
    rewrite stored_lookup. unfold UserCreate.dump_exclude_password.
    destruct (decide (k = "_id")) as [->|]; [done|].
    destruct (decide (k = "updated_at")) as [->|]; [done|].
    destruct (decide (k = "created_at")) as [->|]; [done|].
    destruct (decide (k = "hashed_password")) as [->|]; [done|].
    destruct (decide (k = "email")) as [->|]; [done|].
    destruct (decide (k = "username")) as [->|]; [done|].
    destruct (decide (k = "full_name")) as [->|].
    { rewrite !lookup_insert_ne by done. rewrite lookup_insert_eq.
      rewrite !lookup_insert_ne by done. rewrite lookup_insert_eq.
      by destruct (UserCreate.full_name user_in). }
    destruct (decide (k = "role")) as [->|]; [done|].
    rewrite !lookup_insert_ne by done.
    by rewrite !lookup_singleton_ne by done. }
  split; [|split].
  - unfold UserService.create_user, UserService.get_by_email,
      UserService.get_by_username.
    unfold mbind at 1, M_bind at 1.
    rewrite service_lookup_eval, Hnoemail. cbn.
    unfold mbind at 1, M_bind at 1.
    rewrite service_lookup_eval, Hnouser. cbn.
    unfold mbind at 1, M_bind at 1.
    set (user_data := <["updated_at" := _]> _) in *.
    assert (user_data !! "_id" = None) as Hnoid
      by apply (create_user_doc_hash_only salt created updated user_in).
    unfold Mongo.insert_one. run_m. rewrite Hnoid, Hstored.
    assert (d !! "_id" = Some (VId inserted_id)) as Hid by done.
    rewrite Hid. cbn.
    rewrite Hfresh. rewrite head_find_snoc, (has_id_false_find _ _ Hfresh).
    by rewrite matches_singleton, bool_decide_eq_true_2.
  - done.
  - intros u Hconv.
    apply convert_fields in Hconv
      as ((address & Haddress & Hvalid) & Hname & (i & Hi & Hid) & Hd & Hs).
    assert (d !! "email" = Some (VStr (UserCreate.email user_in))) as He
      by done.
    assert (d !! "username" = Some (VStr (UserCreate.username user_in)))
      as Hu by done.
    assert (d !! "_id" = Some (VId inserted_id)) as Hi' by done.
    assert (d !! "disabled" = None) as Hd' by done.
    assert (d !! "is_superuser" = None) as Hs' by done.
    rewrite He in Haddress. injection Haddress as <-.
    rewrite Hu in Hname. injection Hname as <-.
    rewrite Hi' in Hi. injection Hi as <-.
    rewrite Hd' in Hd. rewrite Hs' in Hs. cbn in Hd, Hs.
    injection Hd as <-. injection Hs as <-. done.
Qed.

End CreateUserProperties.

Lemma jwt_decode_accepted token key now claims :
  jwt.decode token key now = inr claims →
  token = jwt.Signed claims key
  ∧ (∀ v, claims !! "exp" = Some v →
       ∃ exp, jwt.int_claim v = inr exp ∧ timegm now ≤ exp)
  ∧ (∀ sub, claims !! "sub" = Some sub → ∃ name, sub = VStr name).
Proof.
  unfold jwt.decode. destruct token as [claims' k|raw]; [|done].
  destruct (bool_decide (k = key)) eqn:Hk; [|done]. cbn.
  apply bool_decide_eq_true in Hk as ->.
  destruct (jwt.validate_iat claims') as [|[]]; [done|]. cbn.
  destruct (jwt.validate_nbf claims' now) as [|[]]; [done|]. cbn.
  destruct (jwt.validate_exp claims' now) as [|[]] eqn:Hexp; [done|]. cbn.
  destruct (jwt.validate_aud claims') as [|[]]; [done|]. cbn.
  destruct (jwt.validate_sub claims') as [|[]] eqn:Hsub; [done|]. cbn.
  destruct (jwt.validate_jti claims') as [|[]]; [done|]. cbn.
  destruct (jwt.validate_at_hash claims') as [|[]]; [done|]. cbn.
  intros [= <-]. split; [done|]. split.
  - intros v Hv. unfold jwt.validate_exp in Hexp. rewrite Hv in Hexp.
    destruct (jwt.int_claim v) as [|exp]; [done|]. cbn in Hexp.
    destruct (Z.ltb_spec exp (timegm now)); [done|]. eauto.
  - intros sub Hs. unfold jwt.validate_sub in Hsub. rewrite Hs in Hsub.
    destruct sub; try done. eauto.
Qed.

Section TokenDependency.
Context `{PwdContext} `{Settings} {emails : EmailValidator}.

Lemma exception_response_fails {B} (e : Exn) :
  ∃ status_code detail,
    exception_response (B := B) e = Failure status_code detail.
Proof. destruct e; cbn; eauto. Qed.

(** X6. The copy of the token dependency in [users.py] returns a user
    only for a token signed with the application's key, not past its
    expiry second, whose subject is the username of a stored record, and
    the user returned is the one built from the first such record; it
    never changes the collection. *)
Theorem get_current_user_sound (token : jwt.Token) (now : Z)
    (c c' : Collection) (u : UserResponse.t) :
  users.get_current_user token now c = (inr u, c') →
  c' = c
  ∧ ∃ claims d,
      token = jwt.Signed claims SECRET_KEY
      ∧ claims !! "sub" = Some (VStr (UserResponse.username u))
      ∧ (∀ v, claims !! "exp" = Some v →
           ∃ exp, jwt.int_claim v = inr exp ∧ timegm now ≤ exp)
      ∧ head (Mongo.find
                {[ "username" := VStr (UserResponse.username u) ]} c) = Some d
      ∧ UserService._convert_to_response (Some d) = inr (Some u).
Proof.
  unfold users.get_current_user.
  destruct (jwt.decode token SECRET_KEY now) as [e|claims] eqn:Hdec;
    [by destruct e|].
  apply jwt_decode_accepted in Hdec as (-> & Hexp & Hsub).
  destruct (claims !! "sub") as [sub|] eqn:Hs; [|done].
  destruct (Hsub sub eq_refl) as [name ->].
  unfold UserService.get_by_username, mbind at 1, M_bind at 1.
  rewrite service_lookup_eval.
  destruct (head (Mongo.find _ c)) as [d|] eqn:Hd; [|done].
  destruct (UserService._convert_to_response (Some d)) as [e|[u'|]] eqn:Hconv;
    [done| |done].
  intros [= -> <-]. split; [done|].
  apply find_one_hit_matches in Hd as Hm. destruct Hm as [Hm _].
  rewrite matches_singleton in Hm. apply bool_decide_eq_true in Hm.
  apply convert_fields in Hconv as Hf. destruct Hf as (_ & Hname & _).
  rewrite Hm in Hname. injection Hname as ->.
  exists claims, d. done.
Qed.

(** X7. Without a user admitted by [get_current_active_user] (bad,
    foreign or expired token, unknown or disabled user) no [GET] or
    [DELETE] request below [/users] is answered with success, whatever the
    path, and the [DELETE] leaves the collection as it was. *)
Theorem users_routes_gated (segment : string) (skip limit : Z)
    (token : jwt.Token) (now : Z) (c : Collection) (e : Exn) :
  (get_current_active_user token now c).1 = inl e →
  (∀ status body,
     (users.handle_get segment skip limit token now c).1 ≠ Success status body)
  ∧ (∀ status body,
       (users.handle_delete segment token now c).1 ≠ Success status body)
  ∧ (users.handle_delete segment token now c).2 = c.
Proof.
  intros Hdep.
  destruct (get_current_active_user_raises token now c) as [e' Hrun].
  rewrite Hrun in Hdep. cbn in Hdep. injection Hdep as ->.
  assert (∀ B, ∀ status (body : B),
            exception_response (B:=B) e ≠ Success status body) as Hfail.
  { intros B status body. by destruct e. }
  split; [|split].
  - intros status body. unfold users.handle_get.
    destruct (users.resolve users.GET segment) as [[[] [p|]]|];
      try (by cbn);
      try (unfold serve; rewrite (bind_raised _ _ _ _ _ Hrun); apply Hfail).
  - intros status body. unfold users.handle_delete.
    destruct (users.resolve users.DELETE segment) as [[[] p]|];
      try (by destruct (users.path_known segment); cbn);
      try (unfold serve; rewrite (bind_raised _ _ _ _ _ Hrun); apply Hfail).
  - unfold users.handle_delete.
    destruct (users.resolve users.DELETE segment) as [[[] p]|]; try done.
    unfold serve. by rewrite (bind_raised _ _ _ _ _ Hrun).
Qed.

(** X8. The two copies of the token dependency.  They agree on every
    token that does not decode, or decodes and names no subject: the
    same exception.  On every other token the copy in
    [core/security.py], the one the routes depend on, raises
    [TypeError], where the copy in [users.py], which no route uses,
    looks the subject up and returns the stored user, or answers with
    the credentials exception when there is none.  Neither changes the
    collection. *)
Theorem get_current_user_copies_differ (token : jwt.Token) (now : Z)
    (c : Collection) :
  match jwt.decode token SECRET_KEY now with
  | inr payload =>
      match payload !! "sub" with
      | Some (VStr name) =>
          get_current_user token now c = (inl TypeError, c)
          ∧ users.get_current_user token now c
            = (match UserService._convert_to_response
                       (head (Mongo.find {[ "username" := VStr name ]} c))
               with
               | inl e => inl e
               | inr None => inl credentials_exception
               | inr (Some u) => inr u
               end, c)
      | _ =>
          get_current_user token now c = (inl credentials_exception, c)
          ∧ users.get_current_user token now c
            = (inl credentials_exception, c)
      end
  | inl _ => users.get_current_user token now c = get_current_user token now c
  end.
Proof.
  rewrite get_current_user_eval.
  unfold users.get_current_user, decode_token.
  destruct (jwt.decode token SECRET_KEY now) as [e|payload] eqn:Hdec.
  - by destruct e.
  - apply jwt_decode_accepted in Hdec as (_ & _ & Hsub).
    destruct (payload !! "sub") as [sub|] eqn:Hs; [|done].
    destruct (Hsub sub eq_refl) as [name ->].
    split; [done|].
    unfold UserService.get_by_username, mbind at 1, M_bind at 1.
    rewrite service_lookup_eval.
    by destruct (UserService._convert_to_response _) as [|[|]].
Qed.

End TokenDependency.

(** X10. No [GET] path reaches the route [/me]: whatever the path, the
    router hands a [GET] to the listing or to [/{user_id}]. [PUT] and
    [DELETE] reach their [/me] handlers for the path "me" and no handler
    for any other path. *)
Theorem read_user_me_route_unreachable :
  (∀ segment param,
     users.resolve users.GET segment ≠ Some (users.read_user_me_route, param))
  ∧ (∀ segment,
       users.resolve users.PUT segment
       = if bool_decide (segment = "me")
         then Some (users.update_user_me_route, None) else None)
  ∧ (∀ segment,
       users.resolve users.DELETE segment
       = if bool_decide (segment = "me")
         then Some (users.delete_user_me_route, None) else None).
Proof.
  split; [|split].
  - intros segment param. unfold users.resolve, users.routes. cbn.
    destruct (bool_decide (segment = "")) eqn:Hempty; [done|]. cbn.
    destruct (users.has_slash segment) eqn:Hslash; [|done]. cbn.
    destruct (bool_decide (segment = "me")) eqn:Hme; [|done].
    apply bool_decide_eq_true in Hme as ->. done.
  - intros segment. unfold users.resolve, users.routes. cbn.
    by destruct (bool_decide (segment = "me")).
  - intros segment. unfold users.resolve, users.routes. cbn.
    by destruct (bool_decide (segment = "me")).
Qed.

(** ** Requests *)

Section Requests.
Context `{PwdContext} `{Settings} {emails : EmailValidator}.

Lemma serve_raised {A B} status_code (response_model : A → Exn + B)
    (handler : M A) c e :
  handler c = (inl e, c) →
  ∃ status_code' detail,
    serve status_code response_model handler c
    = (Failure status_code' detail, c).
Proof.
  intros Hrun. unfold serve. rewrite Hrun.
  destruct (exception_response_fails (B := B) e) as (s & dt & ->). eauto.
Qed.

(** X11. No request to a route of the auth router or of the users router
    is answered with success, and none changes the collection: whatever
    the request (registration, login, token test, or a [GET], [PUT] or
    [DELETE] below [/users] with any path, body and token), whatever the
    collection and whatever the runtime draws, the answer is a failure
    and the collection is the one before. *)
Theorem no_request_is_served (d : app.Draws) (r : app.Request)
    (c : Collection) :
  ∃ status_code detail, app.handle d r c = (Failure status_code detail, c).
Proof.
  assert (∀ {A B} status_code (response_model : A → Exn + B)
            (handler : M A) c e,
            handler c = (inl e, c) →
            ∃ s dt, (app.status
                       (serve status_code response_model handler c).1,
                     (serve status_code response_model handler c).2)
                    = (Failure s dt, c)) as Hserve.
  { intros A B s rm handler c0 e Hrun.
    destruct (serve_raised s rm handler c0 e Hrun) as (s' & dt & ->).
    by exists s', dt. }
  destruct r as [user_in|username password| |segment skip limit token
                |segment user_in token|segment token]; unfold app.handle.
  - by apply (Hserve _ _ _ _ _ _ TypeError).
  - apply (Hserve _ _ _ _ _ _ NameError).
    unfold auth.login_access_token.
    by rewrite (bind_raised _ _ _ _ _ (authenticate_user_raises _ _ c)).
  - by exists 500, "Internal server error"%string.
  - destruct (get_current_active_user_raises token (app.now d) c)
      as [e Hrun].
    unfold users.handle_get.
    destruct (users.resolve users.GET segment) as [[[] [p|]]|];
      try (by eexists _, _);
      by apply (Hserve _ _ _ _ _ _ e), bind_raised.
  - destruct (get_current_active_user_raises token (app.now d) c)
      as [e Hrun].
    unfold users.handle_put.
    destruct (users.resolve users.PUT segment) as [[[] p]|];
      try (by destruct (users.path_known segment); eexists _, _);
      by apply (Hserve _ _ _ _ _ _ e), bind_raised.
  - destruct (get_current_active_user_raises token (app.now d) c)
      as [e Hrun].
    unfold users.handle_delete.
    destruct (users.resolve users.DELETE segment) as [[[] p]|];
      try (by destruct (users.path_known segment); eexists _, _);
      by apply (Hserve _ _ _ _ _ _ e), bind_raised.
Qed.

End Requests.

(** ** The lifetime of tokens *)

Section Lifetime.
Context `{Settings}.





End Lifetime.

(** ** Allowed origins *)

Lemma split_no_sep sep s :
  py.contains sep s = false → py.split sep s = [s].
Proof.
  induction s as [|a s IH]; [done|]. cbn.
  destruct (bool_decide (a = sep)); [done|]. cbn.
  intros Hs. by rewrite (IH Hs).
Qed.

Lemma split_app_sep sep s rest :
  py.contains sep s = false →
  py.split sep (s +:+ String sep rest) = s :: py.split sep rest.
Proof.
  induction s as [|a s IH].
  - intros _. change (py.split sep ("" +:+ String sep rest))
      with (if bool_decide (sep = sep) then EmptyString :: py.split sep rest
            else match py.split sep rest with
                 | piece :: pieces => String sep piece :: pieces
                 | [] => [String sep EmptyString]
                 end).
    by case_bool_decide.
  - intros Hs. cbn [py.contains] in Hs.
    apply orb_false_elim in Hs as [Ha Hs].
    change (py.split sep (String a s +:+ String sep rest))
      with (if bool_decide (a = sep)
            then EmptyString :: py.split sep (s +:+ String sep rest)
            else match py.split sep (s +:+ String sep rest) with
                 | piece :: pieces => String a piece :: pieces
                 | [] => [String a EmptyString]
                 end).
    by rewrite Ha, (IH Hs).
Qed.

Lemma join_cons_space o os :
  (" " +:+ py.join ", " (o :: os))%string
  = py.join ", " ((" " +:+ o)%string :: os).
Proof. by destruct os. Qed.

Lemma split_join_comma_space o os :
  Forall (λ x, py.contains "," x = false) (o :: os) →
  py.split "," (py.join ", " (o :: os)) = o :: (String " " <$> os).
Proof.
  revert o. induction os as [|o' os IH]; intros o Hall.
  - apply split_no_sep. by inversion Hall.
  - inversion Hall as [|? ? Ho Hrest]; subst.
    change (py.join ", " (o :: o' :: os))
      with (o +:+ String "," (" " +:+ py.join ", " (o' :: os)))%string.
    rewrite (split_app_sep _ _ _ Ho), join_cons_space.
    rewrite IH; [done|].
    inversion Hrest; subst. by constructor.
Qed.

Lemma strip_leading_space s : py.strip (String " " s) = py.strip s.
Proof. done. Qed.

(** X17. Reading the CORS setting back. A non-empty list of origins that
    have no comma and no white space at either end, written as the usual
    comma-and-space separated setting, is read as exactly that list (and
    the setting "*" as the single origin "*"). *)
Theorem allow_origins_round_trip (origins : list string) :
  origins ≠ [] →
  Forall (λ o, py.contains "," o = false ∧ py.strip o = o) origins →
  main.allow_origins (py.join ", " origins) = origins.
Proof.
  intros Hne Hall. destruct origins as [|o os]; [done|].
  unfold main.allow_origins.
  destruct (bool_decide (py.join ", " (o :: os) = "*")) eqn:Hstar.
  - apply bool_decide_eq_true in Hstar.
    destruct os as [|o' os]; [by cbn in Hstar; subst|].
    exfalso. cbn in Hstar.
    destruct o as [|a o]; [done|]. cbn in Hstar.
    injection Hstar as _ Hstar. by destruct o.
  - rewrite split_join_comma_space
      by (eapply Forall_impl; [exact Hall|]; by intros x [? _]).
    rewrite fmap_cons. inversion Hall as [|? ? [_ Ho] Hos]; subst.
    rewrite Ho. f_equal.
    clear -Hos. induction Hos as [|x os [_ Hx] _ IH]; [done|].
    by rewrite !fmap_cons, strip_leading_space, Hx, IH.
Qed.

(** ** The database handle *)

(** X18. In every state the connection lifecycle can reach (connection
    attempts that succeed or fail at any step, and closes, in any order)
    the client and the database handle are set together or not at all;
    [get_database] returns the handle of the last successful connection
    and raises the "not initialized" error after a failed attempt or a
    close. *)
Theorem session_handles_paired (db : session.DataBase) :
  session.reachable db →
  session.client db = session.database db
  ∧ (∀ handle attempt,
       session.get_database (session.connect_to_mongo handle attempt db).2
       = if attempt is session.PingAnswers then inr handle
         else inl session.RuntimeError)
  ∧ session.get_database (session.close_mongo_connection db)
    = inl session.RuntimeError.
Proof.
  intros Hr.
  assert (session.client db = session.database db) as Hpair.
  { induction Hr as [|handle attempt db _ IH|db _ IH]; [done| |].
    - destruct db as [[cl|] dbh], attempt; cbn in *; congruence.
    - destruct db as [[cl|] dbh]; cbn in *; congruence. }
  split; [done|]. split.
  - intros handle attempt.
    destruct db as [[cl|] dbh], attempt; cbn in *; by subst.
  - destruct db as [[cl|] dbh]; cbn in *; by subst.
Qed.

(** ** Object identifiers *)

Lemma lower_hex a :
  ObjectId.is_hex a = true →
  ObjectId.is_hex (ObjectId.lower a) = true
  ∧ ObjectId.lower (ObjectId.lower a) = ObjectId.lower a
  ∧ ObjectId.is_ascii_space a = false.
Proof.
  destruct a as [[] [] [] [] [] [] [] []]; vm_compute; by intros.
Qed.

(** What [bytes.fromhex] returns: lower-case hexadecimal digits, no more
    of them than the string has characters, and as many only when every
    character of the string is a hexadecimal digit. *)
Lemma fromhex_result n : ∀ s r,
  (String.length s ≤ n)%nat →
  ObjectId.fromhex s = Some r →
  ObjectId.all_hex r = true
  ∧ ObjectId.lowercase r = r
  ∧ (String.length r ≤ String.length s)%nat
  ∧ (String.length r = String.length s → ObjectId.all_hex s = true).
Proof.
  induction n as [n IH] using lt_wf_ind. intros s r Hn.
  destruct s as [|a s]; [by intros [= <-]|].
  cbn [ObjectId.fromhex String.length] in *.
  destruct (ObjectId.is_ascii_space a) eqn:Hspace.
  { intros Hr. apply (IH (String.length s)) in Hr as (? & ? & ? & ?);
      [|lia|lia]. repeat split; try done; lia. }
  destruct s as [|b s]; [done|].
  destruct (ObjectId.is_hex a) eqn:Ha; [|done].
  destruct (ObjectId.is_hex b) eqn:Hb; [|done]. cbn [andb].
  destruct (ObjectId.fromhex s) as [r'|] eqn:Hr'; [|done].
  cbn. intros [= <-].
  cbn [String.length] in Hn.
  apply (IH (String.length s)) in Hr' as (Hhex & Hlow & Hlen & Hall);
    [|lia|lia].
  destruct (lower_hex a Ha) as (Ha1 & Ha2 & _).
  destruct (lower_hex b Hb) as (Hb1 & Hb2 & _).
  cbn [ObjectId.all_hex ObjectId.lowercase String.length].
  rewrite Ha, Hb, Ha1, Ha2, Hb1, Hb2, Hhex, Hlow.
  repeat split; try done; [lia|].
  intros Hsame. apply Hall. lia.
Qed.

(** On an even number of hexadecimal digits [bytes.fromhex] returns the
    digits in lower case. *)
Lemma fromhex_digits n : ∀ s,
  (String.length s ≤ n)%nat →
  ObjectId.all_hex s = true →
  Nat.even (String.length s) = true →
  ObjectId.fromhex s = Some (ObjectId.lowercase s).
Proof.
  induction n as [n IH] using lt_wf_ind. intros s Hn Hhex Heven.
  destruct s as [|a [|b s]]; [done|done|].
  cbn [ObjectId.all_hex ObjectId.fromhex ObjectId.lowercase String.length]
    in *.
  apply andb_true_iff in Hhex as [Ha Hhex].
  apply andb_true_iff in Hhex as [Hb Hhex].
  destruct (lower_hex a Ha) as (_ & _ & ->).
  rewrite Ha, Hb. cbn [andb].
  by rewrite (IH (String.length s)); [| lia | lia | |].
Qed.

Lemma lowercase_length s :
  String.length (ObjectId.lowercase s) = String.length s.
Proof. induction s as [|a s IH]; [done|]. cbn. by rewrite IH. Qed.

(** X19. [PyObjectId.validate] never raises the driver's [InvalidId]: it
    raises [ValueError] on every string [ObjectId] refuses, and returns
    what [ObjectId] returns on every other.  An identifier returned is
    made of lower-case hexadecimal digits.  It is accepted again, and
    then returned unchanged, exactly when the string given consists of
    hexadecimal digits only; a string of 24 hexadecimal digits is always
    accepted, with its lower-case form as the identifier.  A string of
    24 characters with white space between its pairs of digits is
    accepted too, and the identifier it gives is refused. *)
Theorem object_id_normal_form (v : string) :
  PyObjectId.validate v ≠ inl InvalidId
  ∧ (ObjectId.is_valid v = false → PyObjectId.validate v = inl ValueError)
  ∧ (∀ oid, ObjectId.make v = inr oid →
       PyObjectId.validate v = inr oid
       ∧ ObjectId.all_hex oid = true
       ∧ ObjectId.lowercase oid = oid
       ∧ (ObjectId.make oid = inr oid ↔ ObjectId.all_hex v = true))
  ∧ (String.length v = 24%nat → ObjectId.all_hex v = true →
       ObjectId.make v = inr (ObjectId.lowercase v))
  ∧ ObjectId.make "50 7f 1f 77 bc f8 6c d7 " = inr "507f1f77bcf86cd7"%string
  ∧ ObjectId.make "507f1f77bcf86cd7" = inl InvalidId.
Proof.
  assert (String.length v = 24%nat → ObjectId.all_hex v = true →
          ObjectId.make v = inr (ObjectId.lowercase v)) as Hdigits.
  { intros Hlen Hhex. unfold ObjectId.make. rewrite Hlen. cbn.
    rewrite (fromhex_digits 24); [done|lia|done|by rewrite Hlen]. }
  split; [|split; [|split; [|split; [done|by vm_compute]]]].
  - unfold PyObjectId.validate, ObjectId.is_valid.
    by destruct (ObjectId.make v) as [e|oid].
  - unfold PyObjectId.validate. by intros ->.
  - intros oid Hmake.
    assert (PyObjectId.validate v = inr oid) as Hvalidate.
    { unfold PyObjectId.validate, ObjectId.is_valid. by rewrite Hmake. }
    split; [done|].
    unfold ObjectId.make in Hmake.
    destruct (Nat.eqb_spec (String.length v) 24) as [Hlen|]; [|done].
    destruct (ObjectId.fromhex v) as [r|] eqn:Hr; [|done].
    injection Hmake as ->.
    destruct (fromhex_result 24 v oid) as (Hhex & Hlow & Hle & Hall);
      [lia|done|].
    split; [done|]. split; [done|]. split.
    + intros Hagain. apply Hall. unfold ObjectId.make in Hagain.
      destruct (Nat.eqb_spec (String.length oid) 24); [lia|done].
    + intros Hv.
      rewrite (fromhex_digits 24) in Hr; [|lia|done|by rewrite Hlen].
      injection Hr as <-.
      unfold ObjectId.make. rewrite lowercase_length, Hlen. cbn.
      rewrite (fromhex_digits 24);
        [by rewrite Hlow|rewrite lowercase_length; lia|done
        |by rewrite lowercase_length, Hlen].
Qed.

(** ** The ticket classifier *)

Section Classifier.
Context {Score : Type}.
Variable gt : Score → Score → bool.
Variable cosine_scores : string → list string → list Score.
Variable argmax : list Score → nat.
Variable nli_pipe : string → string * Score.

Lemma max_from_in (best : ticketbot.Verdict) items :
  ticketbot.max_from gt best items ∈ best :: items.
Proof.
  revert best. induction items as [|x items IH]; intros best; cbn.
  - apply elem_of_cons. by left.
  - specialize (IH (if gt (ticketbot.score x) (ticketbot.score best)
                    then x else best)).
    apply elem_of_cons in IH as [IH|IH]; rewrite !elem_of_cons; [|auto].
    rewrite IH. destruct (gt _ _); auto.
Qed.

Lemma max_from_greatest (best : ticketbot.Verdict) items seen :
  (∀ a, gt a a = false) →
  (∀ a b c, gt a b = true → gt b c = true → gt a c = true) →
  (∀ r, r ∈ seen → gt (ticketbot.score r) (ticketbot.score best) = false) →
  ∀ r, r ∈ seen ++ best :: items →
    gt (ticketbot.score r)
       (ticketbot.score (ticketbot.max_from gt best items)) = false.
Proof.
  intros Hirr Htrans. revert best seen.
  induction items as [|x items IH]; intros best seen Hseen r Hr; cbn.
  - apply elem_of_app in Hr as [Hr|Hr]; [by apply Hseen|].
    apply list_elem_of_singleton in Hr as ->. apply Hirr.
  - destruct (gt (ticketbot.score x) (ticketbot.score best)) eqn:Hx.
    + apply (IH x (seen ++ [best])); [|by rewrite <- app_assoc].
      intros r' Hr'.
      destruct (gt (ticketbot.score r') (ticketbot.score x)) eqn:Hr'x;
        [|done].
      apply elem_of_app in Hr' as [Hr'|Hr'].
      * by rewrite <- (Hseen r' Hr'), (Htrans _ _ _ Hr'x Hx).
      * apply list_elem_of_singleton in Hr' as ->.
        by rewrite <- (Hirr (ticketbot.score x)), (Htrans _ _ _ Hx Hr'x).
    + apply (IH best (seen ++ [x])).
      * intros r' Hr'. apply elem_of_app in Hr' as [Hr'|Hr'];
          [by apply Hseen|].
        by apply list_elem_of_singleton in Hr' as ->.
      * revert Hr. rewrite <- app_assoc. cbn.
        rewrite !elem_of_app, !elem_of_cons. tauto.
Qed.

Lemma max_by_score_greatest (items : list ticketbot.Verdict) :
  (∀ a, gt a a = false) →
  (∀ a b c, gt a b = true → gt b c = true → gt a c = true) →
  items ≠ [] →
  ∃ best, ticketbot.max_by_score gt items = inr best
    ∧ best ∈ items
    ∧ ∀ r, r ∈ items →
        gt (ticketbot.score r) (ticketbot.score best) = false.
Proof.
  intros Hirr Htrans Hne. destruct items as [|x items]; [done|].
  eexists. split; [done|]. split; [apply max_from_in|].
  intros r Hr. apply (max_from_greatest x items [] Hirr Htrans); [|done].
  intros r' Hr'. by apply elem_of_nil in Hr'.
Qed.

(** X20. The refinement step picks the best of the right pool. Where [>]
    on scores is irreflexive and transitive and at least one candidate is
    given, [refine_with_nli] returns one of the verdicts of the NLI model;
    it is an entailment whenever some verdict is; and no verdict of its
    pool (the entailments if there are any, else all verdicts) has a
    greater score. *)
Theorem refine_with_nli_best (query : string) (top_descriptions : list string) :
  (∀ a, gt a a = false) →
  (∀ a b c, gt a b = true → gt b c = true → gt a c = true) →
  top_descriptions ≠ [] →
  ∃ best,
    ticketbot.refine_with_nli gt nli_pipe query top_descriptions = inr best
    ∧ best ∈ ticketbot.nli_results nli_pipe query top_descriptions
    ∧ ((∃ r, r ∈ ticketbot.nli_results nli_pipe query top_descriptions
             ∧ ticketbot.is_entailment r = true) →
       ticketbot.is_entailment best = true)
    ∧ ∀ r, r ∈ ticketbot.nli_results nli_pipe query top_descriptions →
        ticketbot.is_entailment r = true
        ∨ ticketbot.is_entailment best = false →
        gt (ticketbot.score r) (ticketbot.score best) = false.
Proof.
  intros Hirr Htrans Hne. unfold ticketbot.refine_with_nli.
  set (results := ticketbot.nli_results nli_pipe query top_descriptions).
  assert (results ≠ []) as Hresults.
  { unfold results, ticketbot.nli_results. by destruct top_descriptions. }
  destruct (List.filter ticketbot.is_entailment results)
    as [|e entailments] eqn:Hfilter.
  - destruct (max_by_score_greatest results Hirr Htrans Hresults)
      as (best & Hbest & Hin & Hmax).
    exists best. split; [done|]. split; [done|]. split.
    + intros (r & Hr & He). exfalso.
      assert (r ∈ List.filter ticketbot.is_entailment results) as Hrf.
      { apply list_elem_of_In, filter_In. by rewrite <- list_elem_of_In. }
      rewrite Hfilter in Hrf. by apply elem_of_nil in Hrf.
    + intros r Hr _. by apply Hmax.
  - destruct (max_by_score_greatest (e :: entailments) Hirr Htrans)
      as (best & Hbest & Hin & Hmax); [done|].
    rewrite <- Hfilter in Hin, Hmax.
    apply list_elem_of_In, filter_In in Hin as [Hin%list_elem_of_In Hbe].
    exists best. split; [done|]. split; [done|]. split; [done|].
    intros r Hr [He|He]; [|congruence].
    apply Hmax, list_elem_of_In, filter_In. by rewrite <- list_elem_of_In.
Qed.

Lemma reverse_map_lookup name desc :
  (name, desc) ∈ ticketbot.category_map →
  ticketbot.reverse_map !! desc = Some name.
Proof.
  unfold ticketbot.category_map. rewrite !elem_of_cons, elem_of_nil.
  intros H. repeat (destruct H as [[= -> ->]|H]; [by vm_compute|]). done.
Qed.

Lemma category_names_known name desc :
  (name, desc) ∈ ticketbot.category_map → name ≠ "Unknown".
Proof.
  unfold ticketbot.category_map. rewrite !elem_of_cons, elem_of_nil.
  intros H. repeat (destruct H as [[= -> ->]|H]; [done|]). done.
Qed.

(** X21. The classifier always names a category. Where [argmax] answers
    with a position of its argument and the embedder gives one score per
    description, [classify_ticket] returns a result for every query; the
    category and description it reports are a pair of [category_map], so
    the "Unknown" default is never used; the description is the one the
    embedding step ranked first, whatever the NLI model says; and the
    label and score are the NLI model's on that description. *)
Theorem classify_ticket_known_category (query : string) :
  (∀ scores, scores ≠ [] → (argmax scores < length scores)%nat) →
  (∀ q descriptions,
     length (cosine_scores q descriptions) = length descriptions) →
  let q := ticketbot.normalize_query query in
  let cosine := cosine_scores q ticketbot.category_map.*2 in
  ∃ r,
    ticketbot.classify_ticket gt cosine_scores argmax nli_pipe query = inr r
    ∧ (ticketbot.category_name r, ticketbot.description r)
        ∈ ticketbot.category_map
    ∧ ticketbot.category_name r ≠ "Unknown"
    ∧ ticketbot.category_map.*2 !! argmax cosine
        = Some (ticketbot.description r)
    ∧ cosine !! argmax cosine = Some (ticketbot.semantic_score r)
    ∧ (ticketbot.nli_label r, ticketbot.nli_score r)
        = nli_pipe (q +:+ " </s></s> " +:+ ticketbot.description r)%string.
Proof.
  intros Hargmax Hlen q cosine.
  assert (length cosine = 7%nat) as Hcos by (unfold cosine; by rewrite Hlen).
  assert (argmax cosine < 7)%nat as Hidx.
  { rewrite <- Hcos. apply Hargmax. by destruct cosine. }
  destruct (lookup_lt_is_Some_2 cosine (argmax cosine)) as [sc Hsc]; [lia|].
  destruct (lookup_lt_is_Some_2 ticketbot.category_map (argmax cosine))
    as [[name desc] Hpair]; [by cbn|].
  assert (ticketbot.category_map.*2 !! argmax cosine = Some desc) as Hdesc.
  { by rewrite list_lookup_fmap, Hpair. }
  apply list_elem_of_lookup_2 in Hpair.
  unfold ticketbot.classify_ticket, ticketbot.classify_with_embeddings.
  fold q. fold cosine. rewrite Hdesc, Hsc.
  unfold ticketbot.refine_with_nli, ticketbot.nli_results.
  cbn -[ticketbot.reverse_map].
  set (out := nli_pipe (q +:+ " </s></s> " +:+ desc)%string).
  destruct (ticketbot.is_entailment _); cbn -[ticketbot.reverse_map].
  all: eexists; split; [done|]; cbn -[ticketbot.reverse_map].
  all: rewrite (reverse_map_lookup _ _ Hpair); cbn.
  all: repeat split; try done.
  all: try (by eapply category_names_known).
  all: subst out; by destruct (nli_pipe _).
Qed.

End Classifier.

Lemma count_words_normalized (query : string) :
  py.count_words ("The user is facing an issue: " +:+ query)
  = (6 + py.count_words query)%nat.
Proof. done. Qed.

(** X22. A normalised query is long enough. The query handed to the
    models always has more than four words, and normalising it a second
    time changes nothing. *)
Theorem normalize_query_long (query : string) :
  (4 < py.count_words (ticketbot.normalize_query query))%nat
  ∧ ticketbot.normalize_query (ticketbot.normalize_query query)
    = ticketbot.normalize_query query.
Proof.
  assert (4 < py.count_words (ticketbot.normalize_query query))%nat
    as Hlong.
  { unfold ticketbot.normalize_query.
    destruct (4 <? py.count_words query)%nat eqn:Hwords.
    - by apply Nat.ltb_lt.
    - rewrite count_words_normalized. lia. }
  split; [done|].
  unfold ticketbot.normalize_query at 1.
  by apply Nat.ltb_lt in Hlong as ->.
Qed.

(** ** The further properties at concrete inputs *)

Lemma get_multi_pages_cover_witness :
  1 ≤ 1 ≤ 100
  ∧ ∃ pages : list (PaginatedResponse.t Doc),
      concat (PaginatedResponse.items <$> pages) = demo_collection.
Proof.
  split; [lia|].
  destruct (get_multi_pages_cover (inr : Doc → Exn + Doc) (λ _ l, l)
              (λ _ l, Permutation_refl l) 1 None None demo_collection
              demo_collection ltac:(lia) ltac:(vm_compute; reflexivity))
    as (pages & _ & Hcat).
  exists pages. exact Hcat.
Defined.

Lemma crud_create_then_get_witness :
  let d : Doc := Mongo.stored (<["_id" := VId "507f1f77bcf86cd799439012"]>
                                 {[ "name" := VStr "widget" ]}) in
  CRUDPaginatedMongo.get (inr : Doc → Exn + Doc) "507f1f77bcf86cd799439012"
    (demo_collection ++ [d])
  = (Some <$> inr d, demo_collection ++ [d]).
Proof.
  intros d.
  destruct (crud_create_then_get (inr : Doc → Exn + Doc)
              "507f1f77bcf86cd799439012" {[ "name" := VStr "widget" ]}
              demo_collection)
    as (_ & Hget & _).
  - vm_compute. reflexivity.
  - vm_compute. reflexivity.
  - vm_compute. reflexivity.
  - exact Hget.
Defined.

Lemma create_user_keeps_unique_witness :
  let bob := {| UserCreate.email := "b@x.com";
                UserCreate.username := "alice";
                UserCreate.full_name := None;
                UserCreate.role := USER;
                UserCreate.password := "hunter2hunter2" |} in
  NoDup (field_values "username"
           (UserService.create_user (H := demo_pwd_context)
              (emails := demo_email_validator)
              "507f1f77bcf86cd799439012" "c2FsdB" 1700000001000000
              1700000001000001 bob demo_collection).2).
Proof.
  intros bob.
  apply (create_user_keeps_unique (H := demo_pwd_context)
           (emails := demo_email_validator)
           "507f1f77bcf86cd799439012" "c2FsdB" 1700000001000000
           1700000001000001 bob demo_collection).
  - vm_compute. apply NoDup_singleton.
  - vm_compute. apply NoDup_singleton.
  - vm_compute. apply NoDup_singleton.
Defined.

Lemma create_user_stores_request_witness :
  ∃ d, demo_collection = [d]
       ∧ d !! "updated_at" = Some (VTime 1700000000000000)
       ∧ d !! "password" = None.
Proof.
  destruct (create_user_stores_request (H := demo_pwd_context)
              (emails := demo_email_validator) demo_id
              "c2FsdA" 1700000000000000 1700000000000001 demo_alice []
              ltac:(reflexivity) ltac:(reflexivity) ltac:(reflexivity))
    as (Hrun & Hp & _).
  eexists. split; [|split; [|exact Hp]].
  - unfold demo_collection. rewrite Hrun. reflexivity.
  - vm_compute. reflexivity.
Defined.

Lemma get_current_user_sound_witness :
  ∃ claims,
    demo_token = jwt.Signed claims (SECRET_KEY (Settings := demo_settings))
    ∧ claims !! "sub" = Some (VStr "alice").
Proof.
  destruct (get_current_user_sound (H0 := demo_settings)
              (emails := demo_email_validator) demo_token
              1700000200000000 demo_collection demo_collection
              {| UserResponse.id := demo_id;
                 UserResponse.email := "a@x.com";
                 UserResponse.username := "alice";
                 UserResponse.full_name := Some "Alice";
                 UserResponse.role := USER;
                 UserResponse.disabled := false;
                 UserResponse.is_superuser := false;
                 UserResponse.created_at := Some 1700000000000000;
                 UserResponse.updated_at := Some 1700000000000000 |}
              ltac:(vm_compute; reflexivity))
    as (_ & claims & d & Htoken & Hsub & _).
  exists claims. split; [exact Htoken|exact Hsub].
Defined.

Lemma users_routes_gated_witness :
  (get_current_active_user (H0 := demo_settings)
     (emails := demo_email_validator) (jwt.Malformed "not.a.token")
     1700000200000000 demo_collection).1 = inl credentials_exception
  ∧ (users.handle_delete (H0 := demo_settings)
       (emails := demo_email_validator) "me"
       (jwt.Malformed "not.a.token") 1700000200000000 demo_collection).2
    = demo_collection.
Proof.
  assert ((get_current_active_user (H0 := demo_settings)
             (emails := demo_email_validator)
             (jwt.Malformed "not.a.token") 1700000200000000
             demo_collection).1 = inl credentials_exception) as Hfail
    by (vm_compute; reflexivity).
  split; [exact Hfail|].
  destruct (users_routes_gated (H0 := demo_settings)
              (emails := demo_email_validator) "me" 0 10
              (jwt.Malformed "not.a.token") 1700000200000000 demo_collection
              credentials_exception Hfail) as (_ & _ & Hkeeps).
  exact Hkeeps.
Defined.

Lemma allow_origins_round_trip_witness :
  main.allow_origins "http://localhost:3000, https://app.example.com"
  = ["http://localhost:3000"; "https://app.example.com"].
Proof.
  apply (allow_origins_round_trip
           ["http://localhost:3000"; "https://app.example.com"]).
  - discriminate.
  - repeat constructor.
Defined.

Lemma session_handles_paired_witness :
  session.get_database
    (session.close_mongo_connection
       (session.connect_to_mongo 1 session.PingAnswers session.db_initial).2)
  = inl session.RuntimeError.
Proof.
  apply (session_handles_paired
           (session.connect_to_mongo 1 session.PingAnswers
              session.db_initial).2).
  apply session.reach_connect, session.reach_initial.
Defined.

Lemma refine_with_nli_best_witness :
  let nli_pipe (text : string) : string * Z :=
    (if (String.length text <? 40)%nat then "ENTAILMENT" else "NEUTRAL",
     Z.of_nat (String.length text)) in
  ∃ best,
    ticketbot.refine_with_nli Z.gtb nli_pipe "cannot log in"
      ["The user is requesting a refund.";
       "The user is facing a login problem due to incorrect credentials."]
    = inr best
    ∧ ticketbot.is_entailment best = false.
Proof.
  intros nli_pipe.
  destruct (refine_with_nli_best Z.gtb nli_pipe "cannot log in"
              ["The user is requesting a refund.";
               "The user is facing a login problem due to incorrect credentials."])
    as (best & Hbest & Hin & _).
  - intros a. rewrite Z.gtb_ltb. apply Z.ltb_irrefl.
  - intros a b c. rewrite !Z.gtb_ltb, !Z.ltb_lt. lia.
  - discriminate.
  - exists best. split; [exact Hbest|].
    apply elem_of_cons in Hin as [->|Hin]; [reflexivity|].
    apply list_elem_of_singleton in Hin as ->. reflexivity.
Defined.

Lemma classify_ticket_known_category_witness :
  let cosine_scores (q : string) (descriptions : list string) : list Z :=
    (λ d, Z.of_nat (String.length d)) <$> descriptions in
  let argmax (scores : list Z) : nat := 0%nat in
  let nli_pipe (text : string) : string * Z :=
    ("ENTAILMENT", Z.of_nat (String.length text)) in
  ∃ r,
    ticketbot.classify_ticket Z.gtb cosine_scores argmax nli_pipe
      "cannot log in" = inr r
    ∧ ticketbot.category_name r ≠ "Unknown".
Proof.
  intros cosine_scores argmax nli_pipe.
  destruct (classify_ticket_known_category Z.gtb cosine_scores argmax
              nli_pipe "cannot log in")
    as (r & Hr & _ & Hknown & _).
  - intros [|score scores] Hne; [done|]. apply Nat.lt_0_succ.
  - intros q descriptions. apply length_fmap.
  - exists r. split; [exact Hr|exact Hknown].
Defined.
